(** * NeuralStack: the content stage and the pipeline driver

    A shallow embedding of [src/agents/content.py] and [src/main.py].

    Python strings are sequences of Unicode code points; they are modelled
    as lists of code points of type [N].  Library functions the program
    calls ([str.split], [str.strip], [str.replace], [textwrap.dedent]) are
    written out as executable functions; the two Unicode tables behind
    [str.isalnum] and [str.lower] are parameters of the development. *)

From Stdlib Require Import Ascii String.
From Stdlib Require Import List NArith ZArith Lia Bool Arith PrimFloat Uint63.
Import ListNotations.

(** ** Strings *)

Definition char := N.
Definition str := list char.

(** Literal text of the source, one byte per code point (ASCII only). *)
Definition py (s : string) : str :=
  map N_of_ascii (list_ascii_of_string s).
Arguments py s%_string.

Definition newline : char := 10%N.
Definition space : char := 32%N.
Definition tab : char := 9%N.
Definition hyphen : char := 45%N.

(** The double quote, the em dash and the en dash occur in the templates. *)
Definition dquote : str := [34%N].
Definition em_dash : str := [8212%N].
Definition en_dash : str := [8211%N].

(** [a == b] *)
Fixpoint str_eqb (a b : str) : bool :=
  match a, b with
  | [], [] => true
  | x :: a', y :: b' => N.eqb x y && str_eqb a' b'
  | _, _ => false
  end.

(** [sep.join(parts)] *)
Fixpoint join (sep : str) (parts : list str) : str :=
  match parts with
  | [] => []
  | [p] => p
  | p :: rest => p ++ sep ++ join sep rest
  end.

(** [s.startswith(prefix)] *)
Fixpoint startswith (prefix s : str) : bool :=
  match prefix, s with
  | [], _ => true
  | _ :: _, [] => false
  | p :: prefix', c :: s' => N.eqb p c && startswith prefix' s'
  end.

(** [sub in s] *)
Fixpoint contains (sub s : str) : bool :=
  startswith sub s ||
  match s with
  | [] => false
  | _ :: s' => contains sub s'
  end.

(** [s.replace(old, new)] for a non-empty [old]: occurrences are replaced
    from left to right and do not overlap.  [skip] counts the characters of
    the occurrence just replaced that are still to be passed over. *)
Fixpoint replace_from (old new : str) (skip : nat) (s : str) : str :=
  match s with
  | [] => []
  | c :: s' =>
      match skip with
      | S k => replace_from old new k s'
      | O =>
          if startswith old s
          then new ++ replace_from old new (length old - 1) s'
          else c :: replace_from old new 0 s'
      end
  end.

Definition replace (old new s : str) : str := replace_from old new 0 s.

Fixpoint dropwhile (p : char -> bool) (s : str) : str :=
  match s with
  | [] => []
  | c :: s' => if p c then dropwhile p s' else s
  end.

Fixpoint takewhile (p : char -> bool) (s : str) : str :=
  match s with
  | [] => []
  | c :: s' => if p c then c :: takewhile p s' else []
  end.

Definition lstrip_by (p : char -> bool) (s : str) : str := dropwhile p s.
Definition rstrip_by (p : char -> bool) (s : str) : str :=
  rev (dropwhile p (rev s)).
Definition strip_by (p : char -> bool) (s : str) : str :=
  rstrip_by p (lstrip_by p s).

Definition mem (c : char) (chars : str) : bool := existsb (N.eqb c) chars.

(** [s.strip(chars)] removes leading and trailing characters of [chars]. *)
Definition strip_chars (chars s : str) : str :=
  strip_by (fun c => mem c chars) s.

(** The code points CPython treats as whitespace in [str.split()] and
    [str.strip()] without arguments. *)
Definition isspace (c : char) : bool :=
  ((9 <=? c) && (c <=? 13) || (28 <=? c) && (c <=? 32) ||
   (c =? 133) || (c =? 160) || (c =? 5760) ||
   (8192 <=? c) && (c <=? 8202) ||
   (c =? 8232) || (c =? 8233) || (c =? 8239) || (c =? 8287) ||
   (c =? 12288))%N.

Definition strip (s : str) : str := strip_by isspace s.

(** [s.split()]: the maximal runs of non-whitespace characters.  [word]
    holds the characters of the run being read, last one first. *)
Fixpoint split_from (word : str) (s : str) : list str :=
  match s with
  | [] => match word with [] => [] | _ => [rev word] end
  | c :: s' =>
      if isspace c
      then match word with
           | [] => split_from [] s'
           | _ => rev word :: split_from [] s'
           end
      else split_from (c :: word) s'
  end.

Definition split (s : str) : list str := split_from [] s.

(** ** [textwrap.dedent]

    The regular-expression implementation of CPython's [textwrap]: lines
    made only of spaces and tabs are emptied, the margin is the longest
    common prefix of the indentations of the remaining non-empty lines, and
    the margin is removed from the start of every line that begins with
    it.  Lines are delimited by the newline character only. *)

Fixpoint lines_from (line : str) (s : str) : list str :=
  match s with
  | [] => [rev line]
  | c :: s' =>
      if N.eqb c newline then rev line :: lines_from [] s'
      else lines_from (c :: line) s'
  end.

(** [text.split("\n")] *)
Definition lines (s : str) : list str := lines_from [] s.

Definition is_blank (c : char) : bool := N.eqb c space || N.eqb c tab.

Definition clear_blank_line (l : str) : str :=
  if forallb is_blank l then [] else l.

Fixpoint common_prefix (a b : str) : str :=
  match a, b with
  | x :: a', y :: b' => if N.eqb x y then x :: common_prefix a' b' else []
  | _, _ => []
  end.

Fixpoint margin_of (margin : option str) (ls : list str) : option str :=
  match ls with
  | [] => margin
  | l :: ls' =>
      match l with
      | [] => margin_of margin ls'
      | _ =>
          let indent := takewhile is_blank l in
          match margin with
          | None => margin_of (Some indent) ls'
          | Some m => margin_of (Some (common_prefix m indent)) ls'
          end
      end
  end.

Definition remove_prefix (prefix l : str) : str :=
  if startswith prefix l then skipn (length prefix) l else l.

Definition dedent (text : str) : str :=
  let ls := map clear_blank_line (lines text) in
  match margin_of None ls with
  | Some (c :: m) => join [newline] (map (remove_prefix (c :: m)) ls)
  | _ => join [newline] ls
  end.

(** ** Slug derivation: [ContentAgent._slugify] *)

Section Slugify.

(** [c.isalnum()] and [c.lower()] for a one-character string [c].  The
    lower-case form of a character can be longer than one code point. *)
Variable isalnum : char -> bool.
Variable lower : char -> str.

Definition slug_char (c : char) : str :=
  if isalnum c then lower c else [hyphen].

(** The [while "--" in slug] loop. *)
Fixpoint collapse_loop (fuel : nat) (slug : str) : option str :=
  if contains [hyphen; hyphen] slug
  then match fuel with
       | O => None
       | S fuel' => collapse_loop fuel' (replace [hyphen; hyphen] [hyphen] slug)
       end
  else Some slug.

Definition _slugify (text : str) : option str :=
  let slug := join [] (map slug_char text) in
  match collapse_loop (length slug) slug with
  | Some slug => Some (firstn 80 (strip_chars [hyphen] slug))
  | None => None
  end.

End Slugify.

(** The two tables restricted to ASCII, where they agree with CPython:
    letters and digits are alphanumeric, and the capital letters are the
    only characters [lower] changes. *)
Definition ascii_isalnum (c : char) : bool :=
  ((48 <=? c) && (c <=? 57) || (65 <=? c) && (c <=? 90) ||
   (97 <=? c) && (c <=? 122))%N.

Definition ascii_lower (c : char) : str :=
  if ((65 <=? c) && (c <=? 90))%N then [(c + 32)%N] else [c].

(** ** The article generator: [SimpleLocalLLM.generate_long_form_article] *)

Definition MIN_WORDS : nat := 1200.

(** A reading of [datetime.utcnow()], observed through the two renderings
    the program takes of it: [strftime("%B %Y")] and [isoformat()]. *)
Record datetime := {
  strftime_B_Y : str;
  isoformat : str
}.

(** The section templates, line by line as they stand in the source
    between the triple quotes; [keyword] and [now] are interpolated before
    [textwrap.dedent] sees the text. *)

Definition intro_text (keyword now : str) : str :=
  join [newline]
    [ [];
      py "            # " ++ keyword;
      [];
      py "            As a practitioner who cares about maintainable systems and realistic trade-offs,";
      py "            this guide walks through **real-world considerations** instead of fluffy marketing.";
      py "            The goal is to help you make a confident decision about your tooling and architecture,";
      py "            using language that any experienced engineer or tech lead would recognise.";
      [];
      py "            In this article you will learn:";
      [];
      py "            - How this topic fits into modern engineering workflows";
      py "            - Concrete pros and cons you can explain to stakeholders";
      py "            - Implementation patterns, edge cases, and failure modes to watch out for";
      py "            - How to decide whether to adopt, migrate, or wait";
      [];
      py "            All explanations target engineers shipping production systems in " ++ now ++ py ".";
      py "            " ].

Definition h2_architecture_text : str :=
  join [newline]
    [ [];
      py "            ## Core concepts and mental models";
      [];
      py "            Before we dive into specific tools, it is useful to step back and describe";
      py "            the core mental models behind this topic. When you understand the moving";
      py "            pieces conceptually, you become far less dependent on any single vendor";
      py "            or framework.";
      [];
      py "            Think about:";
      [];
      py "            - The boundary between local development and production deployment";
      py "            - Where state is stored and how it flows through the system";
      py "            - Which teams own which layers of the stack";
      py "            - What " ++ dquote ++ py "done" ++ dquote ++ py " means in terms of observability, reliability, and security";
      [];
      py "            Even simple sounding decisions, such as choosing one editor or plugin";
      py "            over another, tend to compound over years as teams, codebases, and";
      py "            infrastructure evolve.";
      py "            " ].

Definition h2_use_cases_text (keyword : str) : str :=
  join [newline]
    [ [];
      py "            ## High-intent use cases and user journeys";
      [];
      py "            Search intent around this topic is rarely casual. Engineers typing";
      py "            queries such as " ++ dquote ++ keyword ++ dquote ++ py " are normally stuck on:";
      [];
      py "            - A migration project with hard deadlines";
      py "            - A compatibility issue blocking deployment";
      py "            - A build, test, or debug workflow that has become painfully slow";
      [];
      py "            When evaluating options, anchor on the **specific journeys**:";
      [];
      py "            1. A new contributor cloning the repo and becoming productive.";
      py "            2. A senior engineer debugging intermittent failures under load.";
      py "            3. An ops team keeping the system observable, patchable, and auditable.";
      py "            4. A tech lead justifying the stack to non-technical stakeholders.";
      py "            " ].

Definition h2_comparisons_text : str :=
  join [newline]
    [ [];
      py "            ## Nuanced comparisons instead of hype";
      [];
      py "            Tool comparisons often degenerate into unhelpful debates. A more";
      py "            responsible way to reason about options is to define a shortlist of";
      py "            evaluation criteria and then score each option in context.";
      [];
      py "            Recommended lenses:";
      [];
      py "            - Learning curve and onboarding experience";
      py "            - Ecosystem maturity and plugin quality";
      py "            - Failure behaviour and how issues surface during incidents";
      py "            - Long-term maintainability for a growing team";
      py "            - Vendor risk and lock-in mitigation strategies";
      [];
      py "            When you read benchmarks or case studies, pause and ask whether the";
      py "            environment, team skills, and risk profile actually match yours.";
      py "            " ].

Definition h2_arch_table_text : str :=
  join [newline]
    [ [];
      py "            ## Architecture and workflow comparison table";
      [];
      py "            | Dimension                 | Conservative choice                    | Progressive choice                         |";
      py "            |---------------------------|----------------------------------------|--------------------------------------------|";
      py "            | Primary optimisation      | Stability and predictability           | Velocity and expressiveness               |";
      py "            | Tooling customisation     | Minimal, opinionated defaults          | Deep, scriptable, highly extensible       |";
      py "            | Ideal team size           | Large orgs with multiple squads        | Small, senior-heavy product teams         |";
      py "            | Operational burden        | Lower, easier to standardise           | Higher, needs clear ownership             |";
      py "            | Risk of lock-in           | Moderate, but manageable               | Depends heavily on integration strategy   |";
      [];
      py "            The right answer is rarely at either extreme. Most organisations end up";
      py "            standardising on a conservative baseline while enabling power users to";
      py "            extend their local workflows where it genuinely pays off.";
      py "            " ].

Definition h2_impl_text : str :=
  join [newline]
    [ [];
      py "            ## Implementation guidelines and failure modes";
      [];
      py "            From an implementation perspective, treat configuration as code and";
      py "            invest early in reproducible environments. A few practical guidelines:";
      [];
      py "            - Keep environment setup scripted and version-controlled.";
      py "            - Capture decisions in lightweight design docs instead of tribal knowledge.";
      py "            - Add smoke tests to catch obvious misconfigurations before release.";
      py "            - Decide what " ++ dquote ++ py "good enough" ++ dquote ++ py " observability looks like before scaling usage.";
      [];
      py "            Common failure modes include silent configuration drift, unclear";
      py "            ownership of tooling, and one-off shell scripts that become accidental";
      py "            production dependencies.";
      py "            " ].

Definition h2_affiliates_text : str :=
  join [newline]
    [ [];
      py "            ## Recommended tools and resources (affiliate-ready)";
      [];
      py "            The following slots are intentionally left as **affiliate placeholders**.";
      py "            Replace them with tools that you genuinely recommend and that you or";
      py "            your organisation have tested in real projects.";
      [];
      py "            - {{AFFILIATE_TOOL_1}} " ++ em_dash ++ py " primary editor or IDE partner";
      py "            - {{AFFILIATE_TOOL_2}} " ++ em_dash ++ py " observability or monitoring solution";
      py "            - {{AFFILIATE_TOOL_3}} " ++ em_dash ++ py " managed hosting, CI, or security scanner";
      [];
      py "            Transparency matters: clearly label commercial relationships and always";
      py "            prioritise developer experience over commission size.";
      py "            " ].

Definition h2_faq_text : str :=
  join [newline]
    [ [];
      py "            ## Frequently asked questions";
      [];
      py "            ### Is it safe to standardise on a single tool?";
      [];
      py "            Standardisation helps reduce cognitive overhead, but you should still";
      py "            leave room for exceptions. Allow power users to diverge when they";
      py "            can demonstrate clear upside and are willing to document their setup.";
      [];
      py "            ### How often should we revisit our tooling choices?";
      [];
      py "            In most teams, a light review every 12" ++ en_dash ++ py "18 months is enough. The goal";
      py "            is not to chase trends, but to make sure your defaults do not become";
      py "            an unexamined constraint that quietly slows product delivery.";
      [];
      py "            ### How can we evaluate claims in benchmarks and vendor content?";
      [];
      py "            Treat glossy benchmarks as a starting point, not a conclusion. Recreate";
      py "            the critical paths from your own system and run targeted experiments";
      py "            under realistic constraints, including network conditions and data size.";
      py "            " ].

Definition h2_conclusion_text : str :=
  join [newline]
    [ [];
      py "            ## Conclusion: how to move forward thoughtfully";
      [];
      py "            The most sustainable decisions are usually boring from the outside.";
      py "            Instead of chasing the newest stack, identify the smallest set of";
      py "            changes that meaningfully de-risk your roadmap and improve developer";
      py "            quality of life.";
      [];
      py "            Make adoption explicit, reversible, and well-documented. Capture what";
      py "            you tried, what worked, and what you decided not to pursue yet. That";
      py "            historical context will save future teams enormous amounts of time";
      py "            and prevent expensive re-litigations of settled questions.";
      py "            " ].

Definition padding : str :=
  py " In practice, each organisation should run small, low-risk experiments, " ++
  py "observe the operational impact over several weeks, and only then roll out " ++
  py "broader changes. Document the trade-offs clearly so that future engineers " ++
  py "can understand not just what you chose, but why other options were rejected.".

(** The sections joined by a blank line, before the minimum-length check. *)
Definition body_sections (keyword now : str) : list str :=
  [ strip (dedent (intro_text keyword now));
    strip (dedent h2_architecture_text);
    strip (dedent (h2_use_cases_text keyword));
    strip (dedent h2_comparisons_text);
    strip (dedent h2_arch_table_text);
    strip (dedent h2_impl_text);
    strip (dedent h2_affiliates_text);
    strip (dedent h2_faq_text);
    strip (dedent h2_conclusion_text) ].

(** [len(content.split())] *)
Definition word_count (content : str) : nat := length (split content).

(** The [while len(words) < MIN_WORDS] loop; [words] is always
    [content.split()] when the condition is tested. *)
Fixpoint pad_loop (fuel : nat) (content : str) : option str :=
  if word_count content <? MIN_WORDS
  then match fuel with
       | O => None
       | S fuel' => pad_loop fuel' (content ++ [newline; newline] ++ padding)
       end
  else Some content.

(** [content] after the body of the padding loop has run [n] times. *)
Fixpoint padded (n : nat) (content : str) : str :=
  match n with
  | O => content
  | S n' => padded n' (content ++ [newline; newline] ++ padding)
  end.

Definition generate_long_form_article
    (keyword category intent : str) (utcnow : datetime) : option str :=
  let now := strftime_B_Y utcnow in
  let content := join [newline; newline] (body_sections keyword now) in
  if word_count content <? MIN_WORDS
  then pad_loop MIN_WORDS content
  else Some content.

(** ** Results of Python code

    A call returns a value or raises.  [OutOfFuel] is not a Python outcome:
    it marks a loop of the model that was cut off before its condition
    became false; the theorems show it is never produced. *)

Inductive exn :=
| KeyError (key : str)
| Raised (is_exception : bool) (message : str).

Inductive result (A : Type) :=
| Ok (a : A)
| Raise (e : exn)
| OutOfFuel.
Arguments Ok {A} a.
Arguments Raise {A} e.
Arguments OutOfFuel {A}.

Definition bind {A B : Type} (r : result A) (k : A -> result B) : result B :=
  match r with
  | Ok a => k a
  | Raise e => Raise e
  | OutOfFuel => OutOfFuel
  end.

Notation "x <- r ;; k" := (bind r (fun x => k))
  (at level 61, r at next level, right associativity).

Definition lift {A : Type} (o : option A) : result A :=
  match o with
  | Some a => Ok a
  | None => OutOfFuel
  end.

(** [except Exception] catches every exception class but the few that
    derive from [BaseException] alone; an external stage may raise either
    kind. *)
Definition is_Exception (e : exn) : bool :=
  match e with
  | KeyError _ => true
  | Raised b _ => b
  end.

(** [str(exc)].  A [KeyError] prints the [repr] of its key; the keys the
    program subscripts with are plain words, whose [repr] is the word
    between single quotes. *)
Definition str_of_exn (e : exn) : str :=
  match e with
  | KeyError key => py "'" ++ key ++ py "'"
  | Raised _ message => message
  end.

(** ** Dictionaries with string keys, in insertion order *)

Fixpoint lookup {V : Type} (key : str) (d : list (str * V)) : option V :=
  match d with
  | [] => None
  | (k, v) :: d' => if str_eqb k key then Some v else lookup key d'
  end.

(** [d[key] = v]: an existing key keeps its place, a new one goes last. *)
Fixpoint setitem {V : Type} (key : str) (v : V) (d : list (str * V))
    : list (str * V) :=
  match d with
  | [] => [(key, v)]
  | (k, w) :: d' =>
      if str_eqb k key then (k, v) :: d' else (k, w) :: setitem key v d'
  end.

(** ** The content stage: [ContentAgent.run] *)

(** A topic is a dictionary; the fields the stage reads hold strings. *)
Definition Topic := list (str * str).

(** [topic[key]] *)
Definition getitem (topic : Topic) (key : str) : result str :=
  match lookup key topic with
  | Some v => Ok v
  | None => Raise (KeyError key)
  end.

(** [topic.get(key, default)] *)
Definition get (topic : Topic) (key default : str) : str :=
  match lookup key topic with
  | Some v => v
  | None => default
  end.

Record DraftArticle := {
  topic_id : str;
  title : str;
  slug : str;
  content : str;
  created_at : str
}.

Section ContentAgent.

Variable isalnum : char -> bool.
Variable lower : char -> str.

(** [utcnow k] is the [k]-th reading of the clock made by the stage: two
    for each topic, one inside the generator and one for [created_at]. *)
Variable utcnow : nat -> datetime.

(** The [for topic in topics] loop, [drafts] being the list built so
    far. *)
Fixpoint run_loop (tick : nat) (drafts : list DraftArticle)
    (topics : list Topic) : result (list DraftArticle) :=
  match topics with
  | [] => Ok drafts
  | topic :: rest =>
      title <- getitem topic (py "keyword") ;;
      slug <- lift (_slugify isalnum lower title) ;;
      keyword <- getitem topic (py "keyword") ;;
      content <- lift (generate_long_form_article keyword
                         (get topic (py "category") [])
                         (get topic (py "intent") [])
                         (utcnow tick)) ;;
      let created_at := isoformat (utcnow (S tick)) ++ py "Z" in
      topic_id <- getitem topic (py "id") ;;
      run_loop (S (S tick))
        (drafts ++ [ {| topic_id := topic_id; title := title; slug := slug;
                        content := content; created_at := created_at |} ])
        rest
  end.

Definition run (topics : list Topic) : result (list DraftArticle) :=
  run_loop 0 [] topics.

End ContentAgent.

(** ** JSON values, as [json.loads] returns them *)

#[warnings="-register-all"] Inductive json :=
| JNull
| JBool (b : bool)
| JInt (n : Z)
| JFloat (f : float)
| JStr (s : str)
| JArr (items : list json)
| JObj (members : list (str * json)).

(** [len(x)] *)
Definition len {A : Type} (l : list A) : Z := Z.of_nat (length l).

(** [v + n] for a value [v] read from the ledger and a count [n] (a
    [len], so a non-negative machine-size integer); [None] is a
    [TypeError]. *)
Definition add_count (v : json) (n : Z) : option json :=
  match v with
  | JInt a => Some (JInt (a + n)%Z)
  | JBool b => Some (JInt ((if b then 1 else 0) + n)%Z)
  | JFloat f => Some (JFloat (PrimFloat.add f (PrimFloat.of_uint63 (Uint63.of_Z n))))
  | _ => None
  end.

(** ** The run entry and the performance ledger *)

Inductive Status := started | success | failed.

Definition status_str (s : Status) : str :=
  match s with
  | started => py "started"
  | success => py "success"
  | failed => py "failed"
  end.

Record RunEntry := {
  timestamp : str;
  status : Status;
  generated_topics : Z;
  generated_articles : Z;
  published_articles : Z;
  errors : list str
}.

Definition set_generated_topics (n : Z) (e : RunEntry) : RunEntry :=
  {| timestamp := timestamp e; status := status e; generated_topics := n;
     generated_articles := generated_articles e;
     published_articles := published_articles e; errors := errors e |}.

Definition set_generated_articles (n : Z) (e : RunEntry) : RunEntry :=
  {| timestamp := timestamp e; status := status e;
     generated_topics := generated_topics e; generated_articles := n;
     published_articles := published_articles e; errors := errors e |}.

Definition set_published_articles (n : Z) (e : RunEntry) : RunEntry :=
  {| timestamp := timestamp e; status := status e;
     generated_topics := generated_topics e;
     generated_articles := generated_articles e;
     published_articles := n; errors := errors e |}.

Definition set_status (s : Status) (e : RunEntry) : RunEntry :=
  {| timestamp := timestamp e; status := s;
     generated_topics := generated_topics e;
     generated_articles := generated_articles e;
     published_articles := published_articles e; errors := errors e |}.

(** [run_entry["errors"].append(message)] *)
Definition append_error (message : str) (e : RunEntry) : RunEntry :=
  {| timestamp := timestamp e; status := status e;
     generated_topics := generated_topics e;
     generated_articles := generated_articles e;
     published_articles := published_articles e;
     errors := errors e ++ [message] |}.

(** The dictionary [run_entry], as it is written to the ledger. *)
Definition entry_json (e : RunEntry) : json :=
  JObj [ (py "timestamp", JStr (timestamp e));
         (py "status", JStr (status_str (status e)));
         (py "generated_topics", JInt (generated_topics e));
         (py "generated_articles", JInt (generated_articles e));
         (py "published_articles", JInt (published_articles e));
         (py "errors", JArr (map JStr (errors e))) ].

(** The empty ledger of [ensure_initial_files] and [load_performance]. *)
Definition default_ledger : json :=
  JObj [ (py "runs", JArr []);
         (py "articles_published", JInt 0%Z);
         (py "last_run", JNull);
         (py "errors", JArr []) ].

(** The ledger of the data model: what a ledger file holds after any
    number of runs that started from the empty ledger. *)
Record PerformanceLedger := {
  runs : list RunEntry;
  articles_published : Z;
  last_run : option str;
  ledger_errors : list str
}.

Definition ledger_json (l : PerformanceLedger) : json :=
  JObj [ (py "runs", JArr (map entry_json (runs l)));
         (py "articles_published", JInt (articles_published l));
         (py "last_run", match last_run l with
                         | Some t => JStr t
                         | None => JNull
                         end);
         (py "errors", JArr (map JStr (ledger_errors l))) ].

(** The ledger after one more run entry has been recorded. *)
Definition record_run (l : PerformanceLedger) (e : RunEntry)
    : PerformanceLedger :=
  {| runs := runs l ++ [e];
     articles_published := (articles_published l + published_articles e)%Z;
     last_run := Some (timestamp e);
     ledger_errors := ledger_errors l ++ errors e |}.

(** The invariant of the data model. *)
Definition ledger_invariant (l : PerformanceLedger) : Prop :=
  articles_published l = fold_right Z.add 0%Z (map published_articles (runs l)) /\
  ledger_errors l = concat (map errors (runs l)).

(** ** The state store *)

(** A ledger file is absent, or cannot be read or parsed ([read_text] or
    [json.loads] raises), or holds the text of a JSON value. *)
Inductive stored :=
| Absent
| Unusable
| Holds (v : json).

Record disk := {
  topics_file : option str;
  performance_file : stored;
  index_file : option str
}.

Definition index_text : str :=
  py "# NeuralStack Autonomous Tech Insights" ++ [newline; newline] ++
  py "Welcome to an automatically updated collection of deep-dive articles on" ++ [newline] ++
  py "developer tools, compatibility guides, and translated tech insights." ++ [newline; newline] ++
  py "New long-form posts are generated and validated daily." ++ [newline].

Definition ensure_initial_files (d : disk) : disk :=
  {| topics_file := match topics_file d with
                    | None => Some (py "[]")
                    | Some t => Some t
                    end;
     performance_file := match performance_file d with
                         | Absent => Holds default_ledger
                         | f => f
                         end;
     index_file := match index_file d with
                   | None => Some index_text
                   | Some t => Some t
                   end |}.

Definition load_performance (d : disk) : json :=
  match performance_file d with
  | Holds v => v
  | _ => default_ledger
  end.

Definition save_performance (data : json) (d : disk) : disk :=
  {| topics_file := topics_file d;
     performance_file := Holds data;
     index_file := index_file d |}.

(** ** The orchestrator: [run_pipeline] *)

(** The exceptions the [finally] block itself can raise. *)
Inductive ledger_error :=
| LedgerKeyError (key : str)
| LedgerTypeError
| LedgerAttributeError.

(** The body of the [finally] block up to [save_performance]. *)
Definition finalize (performance : json) (run_entry : RunEntry)
    : ledger_error + json :=
  match performance with
  | JObj d =>
      match lookup (py "runs") d with
      | None => inl (LedgerKeyError (py "runs"))
      | Some (JArr rs) =>
          let d := setitem (py "runs") (JArr (rs ++ [entry_json run_entry])) d in
          let d := setitem (py "last_run") (JStr (timestamp run_entry)) d in
          let published :=
            match lookup (py "articles_published") d with
            | Some v => v
            | None => JInt 0%Z
            end in
          match add_count published (published_articles run_entry) with
          | None => inl LedgerTypeError
          | Some total =>
              let d := setitem (py "articles_published") total d in
              let performance_errors :=
                match lookup (py "errors") d with
                | Some v => v
                | None => JArr []
                end in
              match performance_errors with
              | JArr es =>
                  inr (JObj (setitem (py "errors")
                               (JArr (es ++ map JStr (errors run_entry))) d))
              | _ => inl LedgerAttributeError
              end
          end
      | Some _ => inl LedgerAttributeError
      end
  | _ => inl LedgerTypeError
  end.

(** What a call of an external stage does: it returns or it raises. *)
Inductive returned (A : Type) :=
| Returns (a : A)
| Raises (e : exn).
Arguments Returns {A} a.
Arguments Raises {A} e.

Definition of_call {A : Type} (c : returned A) : result A :=
  match c with
  | Returns a => Ok a
  | Raises e => Raise e
  end.

(** The stages outside the core, and the clock the content stage reads. *)
Record Agents := {
  discovery_run : returned (list Topic);
  validation_run : list DraftArticle -> returned (list DraftArticle);
  distribution_run : list DraftArticle -> returned (list str);
  content_clock : nat -> datetime
}.

(** The [try] block updates [run_entry] as it goes; what it has written
    stays written when a later stage raises. *)
Definition Try (A : Type) := RunEntry -> RunEntry * result A.

Definition call {A : Type} (r : result A) : Try A := fun e => (e, r).

Definition update (f : RunEntry -> RunEntry) : Try unit :=
  fun e => (f e, Ok tt).

Definition and_then {A B : Type} (m : Try A) (k : A -> Try B) : Try B :=
  fun e =>
    match m e with
    | (e', Ok a) => k a e'
    | (e', Raise x) => (e', Raise x)
    | (e', OutOfFuel) => (e', OutOfFuel)
    end.

Notation "x <~ m ;; k" := (and_then m (fun x => k))
  (at level 61, m at next level, right associativity).
Notation "m ;;; k" := (and_then m (fun _ => k))
  (at level 61, right associativity).

(** How an invocation ends. *)
Inductive ending :=
| Completed
| Uncaught (e : exn)
| FinalizationRaised (e : ledger_error)
| Unfinished.

Section Orchestrator.

Variable isalnum : char -> bool.
Variable lower : char -> str.

Definition try_block (agents : Agents) : Try unit :=
  new_topics <~ call (of_call (discovery_run agents)) ;;
  update (set_generated_topics (len new_topics)) ;;;
  drafts <~ call (run isalnum lower (content_clock agents) new_topics) ;;
  update (set_generated_articles (len drafts)) ;;;
  approved_drafts <~ call (of_call (validation_run agents drafts)) ;;
  published_files <~ call (of_call (distribution_run agents approved_drafts)) ;;
  update (set_published_articles (len published_files)) ;;;
  update (set_status success).

(** [try ... except Exception as exc ...] *)
Definition try_except (agents : Agents) : Try unit :=
  fun e =>
    match try_block agents e with
    | (e', Raise exc) =>
        if is_Exception exc
        then (append_error (str_of_exn exc) (set_status failed e'), Ok tt)
        else (e', Raise exc)
    | other => other
    end.

Definition run_pipeline (agents : Agents) (now : datetime) (d : disk)
    : disk * ending :=
  let d := ensure_initial_files d in
  let performance := load_performance d in
  let run_entry :=
    {| timestamp := isoformat now ++ py "Z"; status := started;
       generated_topics := 0%Z; generated_articles := 0%Z;
       published_articles := 0%Z; errors := [] |} in
  match try_except agents run_entry with
  | (_, OutOfFuel) => (d, Unfinished)
  | (run_entry, outcome) =>
      match finalize performance run_entry with
      | inr performance =>
          (save_performance performance d,
           match outcome with
           | Raise exc => Uncaught exc
           | _ => Completed
           end)
      | inl e => (d, FinalizationRaised e)
      end
  end.

(** The run entry an invocation records: that of [try_except]. *)
Definition recorded_entry (agents : Agents) (now : datetime) : RunEntry :=
  fst (try_except agents
         {| timestamp := isoformat now ++ py "Z"; status := started;
            generated_topics := 0%Z; generated_articles := 0%Z;
            published_articles := 0%Z; errors := [] |}).

End Orchestrator.

(** ** Notions used to state the properties *)

(** A topic with the two fields the content stage subscripts, and a topic
    that lacks one of them. *)
Definition has_required_fields (topic : Topic) : Prop :=
  lookup (py "id") topic <> None /\ lookup (py "keyword") topic <> None.

Definition lacks_required_field (topic : Topic) : Prop :=
  lookup (py "id") topic = None \/ lookup (py "keyword") topic = None.

(** Sample data: a clock that always reads the same instant, two
    well-formed topics, a topic without keyword, stages that pass their
    input on, and an empty ledger. *)
Definition sample_instant : datetime :=
  {| strftime_B_Y := py "November 2026";
     isoformat := py "2026-11-04T09:30:00.000125" |}.

Definition sample_clock : nat -> datetime := fun _ => sample_instant.

Definition sample_topics : list Topic :=
  [ [ (py "id", py "t1"); (py "keyword", py "vim vs vscode") ];
    [ (py "id", py "t2"); (py "keyword", py "docker compose");
      (py "category", py "devops") ] ].

Definition malformed_topics : list Topic :=
  [ [ (py "id", py "t1"); (py "keyword", py "vim vs vscode") ];
    [ (py "id", py "t2") ] ].

Definition passthrough_agents (topics : list Topic) : Agents :=
  {| discovery_run := Returns topics;
     validation_run := fun drafts => Returns drafts;
     distribution_run := fun drafts => Returns (map slug drafts);
     content_clock := sample_clock |}.

Definition empty_ledger : PerformanceLedger :=
  {| runs := []; articles_published := 0%Z; last_run := None;
     ledger_errors := [] |}.

(** A data directory in which no file exists yet. *)
Definition empty_disk : disk :=
  {| topics_file := None; performance_file := Absent; index_file := None |}.

(** The run entry as [run_pipeline] creates it, before the [try] block. *)
Definition started_entry (now : datetime) : RunEntry :=
  {| timestamp := isoformat now ++ py "Z"; status := started;
     generated_topics := 0%Z; generated_articles := 0%Z;
     published_articles := 0%Z; errors := [] |}.

(** Invocations of [run_pipeline] one after the other on the same data
    directory, each with its own stages and its own starting time. *)
Definition run_all (isalnum : char -> bool) (lower : char -> str)
    (invocations : list (Agents * datetime)) (d : disk) : disk :=
  fold_left
    (fun d inv => fst (run_pipeline isalnum lower (fst inv) (snd inv) d))
    invocations d.

(** The ledger values on which the [finally] block raises nothing: an
    object whose [runs] is a list, whose [articles_published] is missing
    or a number, and whose [errors] is missing or a list. *)
Definition ledger_usable (performance : json) : Prop :=
  exists d rs,
    performance = JObj d /\
    lookup (py "runs") d = Some (JArr rs) /\
    match lookup (py "articles_published") d with
    | None | Some (JInt _) | Some (JBool _) | Some (JFloat _) => True
    | Some _ => False
    end /\
    match lookup (py "errors") d with
    | None | Some (JArr _) => True
    | Some _ => False
    end.

(** What the content stage makes of one topic: the fields of the draft,
    the article having been generated at the reading [k] of the clock and
    the draft stamped at the next one. *)
Definition draft_of (isalnum : char -> bool) (lower : char -> str)
    (utcnow : nat -> datetime) (topic : Topic) (d : DraftArticle) : Prop :=
  lookup (py "id") topic = Some (topic_id d) /\
  lookup (py "keyword") topic = Some (title d) /\
  _slugify isalnum lower (title d) = Some (slug d) /\
  MIN_WORDS <= word_count (content d) /\
  exists k,
    generate_long_form_article (title d) (get topic (py "category") [])
      (get topic (py "intent") []) (utcnow k) = Some (content d) /\
    created_at d = isoformat (utcnow (S k)) ++ py "Z".

(** The topic of the end-to-end scenario, the draft the content stage
    makes of it at the sample instant, and stages that fail. *)
Definition scenario_topics : list Topic :=
  [ [ (py "id", py "t1"); (py "keyword", py "vim vs vscode") ] ].

Definition scenario_drafts : list DraftArticle := Eval vm_compute in
    match run ascii_isalnum ascii_lower sample_clock scenario_topics with
    | Ok drafts => drafts
    | _ => []
    end.

Definition failing_validation_agents : Agents :=
  {| discovery_run := Returns scenario_topics;
     validation_run := fun _ => Raises (Raised true (py "draft rejected"));
     distribution_run := fun drafts => Returns (map slug drafts);
     content_clock := sample_clock |}.

Definition interrupted_agents : Agents :=
  {| discovery_run := Raises (Raised false []);
     validation_run := fun drafts => Returns drafts;
     distribution_run := fun drafts => Returns (map slug drafts);
     content_clock := sample_clock |}.


(** * Properties *)

(** ** Strings *)

Lemma str_eqb_eq (a b : str) : str_eqb a b = true <-> a = b.
Proof.
  revert b. induction a as [|x a IH]; intros [|y b]; simpl; split;
    try congruence; try reflexivity.
  - intros H. apply andb_true_iff in H as [Hxy Hab].
    apply N.eqb_eq in Hxy. apply IH in Hab. congruence.
  - intros H. injection H as -> ->. rewrite N.eqb_refl. simpl.
    now apply IH.
Qed.

Lemma str_eqb_refl (a : str) : str_eqb a a = true.
Proof. now apply str_eqb_eq. Qed.

(** Whitespace between two texts separates their words. *)
Lemma split_from_app_space (word a : str) (c : char) (b : str) :
  isspace c = true ->
  split_from word (a ++ c :: b) = split_from word a ++ split b.
Proof.
  intros Hc. revert word.
  induction a as [|x a IH]; intros word; simpl.
  - rewrite Hc. destruct word; reflexivity.
  - destruct (isspace x).
    + destruct word; rewrite IH; reflexivity.
    + apply IH.
Qed.

(** ** The article generator *)

Lemma padding_word_count : word_count padding = 44.
Proof. vm_compute. reflexivity. Qed.

(** One pass through the loop body adds the words of the padding. *)
Lemma word_count_padded_once (content : str) :
  word_count (content ++ [newline; newline] ++ padding) = word_count content + 44.
Proof.
  unfold word_count, split.
  change (content ++ [newline; newline] ++ padding)
    with (content ++ newline :: (newline :: padding)).
  rewrite split_from_app_space by reflexivity.
  rewrite length_app.
  replace (length (split (newline :: padding))) with 44
    by (vm_compute; reflexivity).
  reflexivity.
Qed.

Lemma pad_loop_unfold (fuel : nat) (content : str) :
  pad_loop fuel content =
  if word_count content <? MIN_WORDS
  then match fuel with
       | O => None
       | S fuel' => pad_loop fuel' (content ++ [newline; newline] ++ padding)
       end
  else Some content.
Proof. destruct fuel; reflexivity. Qed.

(** With enough fuel the loop stops, after at most [fuel] passes, on a
    text that meets the threshold. *)
Lemma pad_loop_runs (fuel : nat) :
  forall content,
    MIN_WORDS <= word_count content + 44 * fuel ->
    exists n,
      n <= fuel /\
      pad_loop n content = Some (padded n content) /\
      MIN_WORDS <= word_count (padded n content).
Proof.
  induction fuel as [|fuel IH]; intros content H.
  - exists 0. rewrite pad_loop_unfold.
    destruct (Nat.ltb_spec (word_count content) MIN_WORDS); simpl.
    + lia.
    + repeat split; [lia | assumption].
  - destruct (Nat.ltb_spec (word_count content) MIN_WORDS) as [Hlt|Hge].
    + destruct (IH (content ++ [newline; newline] ++ padding)) as (n & Hn & Hrun & Hw).
      { rewrite word_count_padded_once. lia. }
      exists (S n). split; [lia|]. split.
      * rewrite pad_loop_unfold.
        destruct (Nat.ltb_spec (word_count content) MIN_WORDS); [|lia].
        exact Hrun.
      * exact Hw.
    + exists 0. split; [lia|]. split; [|exact Hge].
      rewrite pad_loop_unfold.
      destruct (Nat.ltb_spec (word_count content) MIN_WORDS); [lia|reflexivity].
Qed.

(** More fuel does not change the result. *)
Lemma pad_loop_more_fuel (fuel : nat) :
  forall fuel' content r,
    pad_loop fuel content = Some r -> fuel <= fuel' ->
    pad_loop fuel' content = Some r.
Proof.
  induction fuel as [|fuel IH]; intros fuel' content r H Hle;
    rewrite pad_loop_unfold in H; rewrite pad_loop_unfold;
    destruct (word_count content <? MIN_WORDS); try exact H; try discriminate.
  destruct fuel' as [|fuel']; [lia|].
  apply IH; [exact H | lia].
Qed.


Lemma pad_from (content : str) :
  exists n,
    n <= 28 /\
    pad_loop n content = Some (padded n content) /\
    (if word_count content <? MIN_WORDS
     then pad_loop MIN_WORDS content
     else Some content) = Some (padded n content) /\
    MIN_WORDS <= word_count (padded n content).
Proof.
  destruct (pad_loop_runs 28 content) as (n & Hn & Hrun & Hw).
  { unfold MIN_WORDS. lia. }
  exists n. split; [exact Hn|]. split; [exact Hrun|]. split; [|exact Hw].
  destruct (Nat.ltb_spec (word_count content) MIN_WORDS) as [Hlt|Hge].
  - apply (pad_loop_more_fuel n); [exact Hrun | unfold MIN_WORDS; lia].
  - rewrite pad_loop_unfold in Hrun.
    destruct (Nat.ltb_spec (word_count content) MIN_WORDS); [lia|].
    exact Hrun.
Qed.

Lemma generate_padded (keyword category intent : str) (utcnow : datetime) :
  exists n,
    n <= 28 /\
    pad_loop n (join [newline; newline] (body_sections keyword (strftime_B_Y utcnow)))
      = Some (padded n (join [newline; newline] (body_sections keyword (strftime_B_Y utcnow)))) /\
    generate_long_form_article keyword category intent utcnow
      = Some (padded n (join [newline; newline] (body_sections keyword (strftime_B_Y utcnow)))) /\
    MIN_WORDS <= word_count (padded n (join [newline; newline] (body_sections keyword (strftime_B_Y utcnow)))).
Proof.
  exact (pad_from (join [newline; newline] (body_sections keyword (strftime_B_Y utcnow)))).
Qed.

Lemma generate_total (keyword category intent : str) (utcnow : datetime) :
  exists article,
    generate_long_form_article keyword category intent utcnow = Some article.
Proof.
  destruct (generate_padded keyword category intent utcnow)
    as (n & _ & _ & H & _).
  exists (padded n (join [newline; newline]
                      (body_sections keyword (strftime_B_Y utcnow)))).
  exact H.
Qed.

(** C1. For every keyword, in particular every non-empty one, the article
    generator called with empty category and intent returns a text, and
    the number of whitespace-delimited words of that text is at least
    1200 ([MIN_WORDS]). *)
Theorem generated_article_has_min_words (keyword : str) (utcnow : datetime) :
  exists article,
    generate_long_form_article keyword [] [] utcnow = Some article /\
    MIN_WORDS <= length (split article) /\
    MIN_WORDS = 1200.
Proof.
  destruct (generate_padded keyword [] [] utcnow) as (n & _ & _ & H & Hw).
  exists (padded n (join [newline; newline]
                      (body_sections keyword (strftime_B_Y utcnow)))).
  unfold word_count in Hw.
  split; [exact H|]. split; [exact Hw | reflexivity].
Qed.

(** C9. For every keyword, category and intent the padding loop stops
    after at most 28 passes through its body: the padding sentence has 44
    words, so each pass adds 44 words and 28 passes reach the threshold of
    1200 from any starting text.  [pad_loop n] is the loop allowed [n]
    passes, and [padded n content] is the text after [n] passes. *)
Theorem padding_loop_terminates
    (keyword category intent : str) (utcnow : datetime) :
  word_count padding = 44 /\
  exists n,
    n <= 28 /\
    pad_loop n (join [newline; newline]
                  (body_sections keyword (strftime_B_Y utcnow)))
      = Some (padded n (join [newline; newline]
                          (body_sections keyword (strftime_B_Y utcnow)))) /\
    generate_long_form_article keyword category intent utcnow
      = Some (padded n (join [newline; newline]
                          (body_sections keyword (strftime_B_Y utcnow)))).
Proof.
  refine (conj padding_word_count _).
  destruct (generate_padded keyword category intent utcnow)
    as (n & Hn & Hrun & H & _).
  exact (ex_intro _ n (conj Hn (conj Hrun H))).
Qed.

(** C10. With the reading of the clock fixed, the article depends on the
    keyword alone: two calls with the same keyword and the same reading
    return the same text whatever the category and intent arguments. *)
Theorem article_determined_by_keyword
    (keyword category1 intent1 category2 intent2 : str) (utcnow : datetime) :
  generate_long_form_article keyword category1 intent1 utcnow =
  generate_long_form_article keyword category2 intent2 utcnow.
Proof. unfold generate_long_form_article. reflexivity. Qed.

(** ** Slug derivation *)

Lemma startswith_hyphens (c : char) (s : str) :
  startswith [hyphen; hyphen] (c :: s) = true ->
  c = hyphen /\ exists rest, s = hyphen :: rest.
Proof.
  cbn [startswith]. intros H. apply andb_true_iff in H as [Hc Hs].
  apply N.eqb_eq in Hc. split; [now symmetry|].
  destruct s as [|d rest]; [discriminate|].
  cbn [startswith] in Hs.
  apply andb_true_iff in Hs as [Hd _]. apply N.eqb_eq in Hd.
  exists rest. now subst.
Qed.

Lemma replace_hyphens (rest : str) :
  replace [hyphen; hyphen] [hyphen] (hyphen :: hyphen :: rest)
  = hyphen :: replace [hyphen; hyphen] [hyphen] rest.
Proof. reflexivity. Qed.

Lemma replace_other (c : char) (s : str) :
  startswith [hyphen; hyphen] (c :: s) = false ->
  replace [hyphen; hyphen] [hyphen] (c :: s)
  = c :: replace [hyphen; hyphen] [hyphen] s.
Proof.
  intros H. unfold replace.
  change (replace_from [hyphen; hyphen] [hyphen] 0 (c :: s))
    with (if startswith [hyphen; hyphen] (c :: s)
          then [hyphen] ++ replace_from [hyphen; hyphen] [hyphen] 1 s
          else c :: replace_from [hyphen; hyphen] [hyphen] 0 s).
  now rewrite H.
Qed.

(** Replacing never lengthens a string... *)
Lemma replace_length_le (n : nat) :
  forall s, length s <= n ->
    length (replace [hyphen; hyphen] [hyphen] s) <= length s.
Proof.
  induction n as [|n IH]; intros s Hn.
  - destruct s; [apply Nat.le_refl | simpl in Hn; lia].
  - destruct s as [|c s]; [apply Nat.le_refl|].
    destruct (startswith [hyphen; hyphen] (c :: s)) eqn:Hs.
    + apply startswith_hyphens in Hs as [-> [rest ->]].
      rewrite replace_hyphens. simpl in *.
      specialize (IH rest). lia.
    + rewrite replace_other by exact Hs. simpl in *.
      specialize (IH s). lia.
Qed.

(** ... and shortens one that holds two hyphens in a row: the measure of
    the collapsing loop. *)
Lemma replace_shrinks (s : str) :
  contains [hyphen; hyphen] s = true ->
  length (replace [hyphen; hyphen] [hyphen] s) < length s.
Proof.
  induction s as [|c s IH]; intros H; [discriminate|].
  destruct (startswith [hyphen; hyphen] (c :: s)) eqn:Hs.
  - apply startswith_hyphens in Hs as [-> [rest ->]].
    rewrite replace_hyphens. simpl.
    pose proof (replace_length_le (length rest) rest (Nat.le_refl _)). lia.
  - rewrite replace_other by exact Hs.
    change (contains [hyphen; hyphen] (c :: s))
      with (startswith [hyphen; hyphen] (c :: s) || contains [hyphen; hyphen] s)
      in H.
    rewrite Hs in H. simpl in H. apply IH in H. simpl. lia.
Qed.

Lemma collapse_loop_unfold (fuel : nat) (slug : str) :
  collapse_loop fuel slug =
  if contains [hyphen; hyphen] slug
  then match fuel with
       | O => None
       | S fuel' => collapse_loop fuel' (replace [hyphen; hyphen] [hyphen] slug)
       end
  else Some slug.
Proof. destruct fuel; reflexivity. Qed.

(** The loop stops within [length slug] passes, on a string without two
    hyphens in a row. *)
Lemma collapse_loop_terminates (fuel : nat) :
  forall slug, length slug <= fuel ->
    exists r, collapse_loop fuel slug = Some r /\
              contains [hyphen; hyphen] r = false /\
              length r <= length slug.
Proof.
  induction fuel as [|fuel IH]; intros slug Hlen;
    rewrite collapse_loop_unfold;
    destruct (contains [hyphen; hyphen] slug) eqn:Hc.
  - destruct slug; [discriminate | simpl in Hlen; lia].
  - exists slug. auto.
  - pose proof (replace_shrinks slug Hc) as Hlt.
    destruct (IH (replace [hyphen; hyphen] [hyphen] slug)) as (r & Hr & Hd & Hl);
      [lia|].
    exists r. repeat split; [exact Hr | exact Hd | lia].
  - exists slug. auto.
Qed.

Lemma startswith_app (sub a b : str) :
  startswith sub a = true -> startswith sub (a ++ b) = true.
Proof.
  revert a. induction sub as [|x sub IH]; intros a H; [reflexivity|].
  destruct a as [|y a]; [discriminate|]. simpl in *.
  apply andb_true_iff in H as [Hxy Hs]. rewrite Hxy. simpl. now apply IH.
Qed.

Lemma contains_prefix (sub a b : str) :
  contains sub (a ++ b) = false -> contains sub a = false.
Proof.
  induction a as [|y a IH]; intros H.
  - destruct (contains sub []) eqn:Hc; [|reflexivity].
    simpl in Hc. rewrite orb_false_r in Hc.
    destruct sub; [|discriminate].
    destruct b; simpl in H; discriminate.
  - change (contains sub ((y :: a) ++ b))
      with (startswith sub ((y :: a) ++ b) || contains sub (a ++ b)) in H.
    apply orb_false_iff in H as [Hs Hc].
    change (contains sub (y :: a))
      with (startswith sub (y :: a) || contains sub a).
    rewrite (IH Hc), orb_false_r.
    destruct (startswith sub (y :: a)) eqn:Hp; [|reflexivity].
    apply (startswith_app _ _ b) in Hp. congruence.
Qed.

Lemma contains_suffix (sub a b : str) :
  contains sub (a ++ b) = false -> contains sub b = false.
Proof.
  induction a as [|y a IH]; intros H; [exact H|].
  change (contains sub ((y :: a) ++ b))
    with (startswith sub ((y :: a) ++ b) || contains sub (a ++ b)) in H.
  apply orb_false_iff in H as [_ Hc]. now apply IH.
Qed.

Lemma takewhile_dropwhile (p : char -> bool) (s : str) :
  takewhile p s ++ dropwhile p s = s.
Proof.
  induction s as [|c s IH]; [reflexivity|]. simpl.
  destruct (p c); [simpl; now rewrite IH | reflexivity].
Qed.

(** Stripping on the right keeps a prefix. *)
Lemma rstrip_by_prefix (p : char -> bool) (s : str) :
  exists tail, s = rstrip_by p s ++ tail.
Proof.
  unfold rstrip_by. exists (rev (takewhile p (rev s))).
  rewrite <- rev_app_distr, takewhile_dropwhile. now rewrite rev_involutive.
Qed.

Lemma dropwhile_head (p : char -> bool) (s : str) (c : char) (rest : str) :
  dropwhile p s = c :: rest -> p c = false.
Proof.
  induction s as [|d s IH]; [discriminate|]. simpl.
  destruct (p d) eqn:Hd; [exact IH|].
  intros H. injection H as -> _. exact Hd.
Qed.

Lemma strip_by_head (p : char -> bool) (s : str) (c : char) (rest : str) :
  strip_by p s = c :: rest -> p c = false.
Proof.
  unfold strip_by, lstrip_by. intros H.
  destruct (rstrip_by_prefix p (dropwhile p s)) as [tail Ht].
  rewrite H in Ht. simpl in Ht.
  exact (dropwhile_head p s c (rest ++ tail) Ht).
Qed.

Lemma strip_by_contains (p : char -> bool) (sub s : str) :
  contains sub s = false -> contains sub (strip_by p s) = false.
Proof.
  unfold strip_by, lstrip_by. intros H.
  rewrite <- (takewhile_dropwhile p s) in H. apply contains_suffix in H.
  destruct (rstrip_by_prefix p (dropwhile p s)) as [tail Ht].
  rewrite Ht in H. exact (contains_prefix _ _ _ H).
Qed.

Section SlugifyFacts.

Variable isalnum : char -> bool.
Variable lower : char -> str.

(** The derivation is total: the collapsing loop never runs out of
    fuel. *)
Lemma _slugify_total (text : str) :
  exists slug, _slugify isalnum lower text = Some slug.
Proof.
  unfold _slugify.
  destruct (collapse_loop_terminates
              (length (join [] (map (slug_char isalnum lower) text)))
              (join [] (map (slug_char isalnum lower) text))
              (Nat.le_refl _)) as (r & Hr & _).
  rewrite Hr. eexists. reflexivity.
Qed.

(** What holds of every slug: at most 80 characters, no hyphen in
    front, no two hyphens in a row. *)
Lemma _slugify_shape (text slug : str) :
  _slugify isalnum lower text = Some slug ->
  length slug <= 80 /\
  (forall rest, slug <> hyphen :: rest) /\
  contains [hyphen; hyphen] slug = false.
Proof.
  unfold _slugify.
  destruct (collapse_loop_terminates
              (length (join [] (map (slug_char isalnum lower) text)))
              (join [] (map (slug_char isalnum lower) text))
              (Nat.le_refl _)) as (r & Hr & Hd & _).
  rewrite Hr. intros H.
  assert (Hslug : slug = firstn 80 (strip_chars [hyphen] r)) by congruence.
  clear H. subst slug.
  split; [|split].
  - apply firstn_le_length.
  - intros rest Hf. unfold strip_chars in Hf.
    destruct (strip_by (fun c => mem c [hyphen]) r) as [|c t] eqn:Hs;
      [destruct rest; discriminate|].
    simpl in Hf. injection Hf as -> _.
    apply strip_by_head in Hs. discriminate.
  - apply (contains_prefix _ _
             (skipn 80 (strip_chars [hyphen] r))).
    rewrite firstn_skipn. now apply strip_by_contains.
Qed.

End SlugifyFacts.

(** C3. The slug of the 81-character title made of 79 letters [a], a
    space and a letter [b] is 79 letters [a] followed by a hyphen: the
    hyphens are stripped before the slug is cut to 80 characters, so the
    cut can leave a hyphen at the end. *)
Theorem slug_ends_with_hyphen_after_truncation :
  _slugify ascii_isalnum ascii_lower (repeat 97%N 79 ++ py " b")
  = Some (repeat 97%N 79 ++ [hyphen]).
Proof. vm_compute. reflexivity. Qed.

(** C4. Deriving a slug twice differs from deriving it once on the same
    title: the first derivation ends with a hyphen left by the cut, the
    second strips it. *)
Theorem slugify_twice_differs_after_truncation :
  _slugify ascii_isalnum ascii_lower (repeat 97%N 79 ++ py " b")
  = Some (repeat 97%N 79 ++ [hyphen]) /\
  _slugify ascii_isalnum ascii_lower (repeat 97%N 79 ++ [hyphen])
  = Some (repeat 97%N 79) /\
  repeat 97%N 79 ++ [hyphen] <> repeat 97%N 79.
Proof.
  split; [vm_compute; reflexivity|].
  split; [vm_compute; reflexivity|].
  intros H. apply (f_equal (@length char)) in H.
  vm_compute in H. discriminate.
Qed.

(** ** The content stage *)

Section ContentFacts.

Variable isalnum : char -> bool.
Variable lower : char -> str.
Variable utcnow : nat -> datetime.

(** One pass through the loop body for a topic that has both fields. *)
Lemma run_loop_step (tick : nat) (drafts : list DraftArticle)
    (topic : Topic) (rest : list Topic) (id kw : str) :
  lookup (py "id") topic = Some id ->
  lookup (py "keyword") topic = Some kw ->
  exists d,
    topic_id d = id /\ title d = kw /\
    _slugify isalnum lower kw = Some (slug d) /\
    generate_long_form_article kw (get topic (py "category") [])
      (get topic (py "intent") []) (utcnow tick) = Some (content d) /\
    created_at d = isoformat (utcnow (S tick)) ++ py "Z" /\
    run_loop isalnum lower utcnow tick drafts (topic :: rest)
    = run_loop isalnum lower utcnow (S (S tick)) (drafts ++ [d]) rest.
Proof.
  intros Hid Hkw.
  destruct (_slugify_total isalnum lower kw) as [s Hs].
  destruct (generate_total kw (get topic (py "category") [])
              (get topic (py "intent") []) (utcnow tick)) as [c Hg].
  exists {| topic_id := id; title := kw; slug := s; content := c;
            created_at := isoformat (utcnow (S tick)) ++ py "Z" |}.
  cbn [topic_id title slug content created_at].
  repeat (split; [first [reflexivity | assumption]|]).
  cbn [run_loop]. unfold getitem. rewrite Hkw. cbn [bind].
  rewrite Hs. cbn [lift bind]. rewrite Hg. cbn [lift bind].
  rewrite Hid. cbn [bind]. reflexivity.
Qed.

Lemma run_loop_no_keyword (tick : nat) (drafts : list DraftArticle)
    (topic : Topic) (rest : list Topic) :
  lookup (py "keyword") topic = None ->
  run_loop isalnum lower utcnow tick drafts (topic :: rest)
  = Raise (KeyError (py "keyword")).
Proof.
  intros Hkw. cbn [run_loop]. unfold getitem. rewrite Hkw. reflexivity.
Qed.

(** A topic without id fails only after its article was generated. *)
Lemma run_loop_no_id (tick : nat) (drafts : list DraftArticle)
    (topic : Topic) (rest : list Topic) (kw : str) :
  lookup (py "keyword") topic = Some kw ->
  lookup (py "id") topic = None ->
  run_loop isalnum lower utcnow tick drafts (topic :: rest)
  = Raise (KeyError (py "id")).
Proof.
  intros Hkw Hid.
  destruct (_slugify_total isalnum lower kw) as [s Hs].
  destruct (generate_total kw (get topic (py "category") [])
              (get topic (py "intent") []) (utcnow tick)) as [c Hg].
  cbn [run_loop]. unfold getitem. rewrite Hkw. cbn [bind].
  rewrite Hs. cbn [lift bind]. rewrite Hg. cbn [lift bind].
  rewrite Hid. reflexivity.
Qed.

Lemma run_loop_ok (topics : list Topic) :
  forall tick drafts,
    Forall has_required_fields topics ->
    exists new,
      run_loop isalnum lower utcnow tick drafts topics = Ok (drafts ++ new) /\
      length new = length topics /\
      map (fun d => Some (topic_id d)) new = map (lookup (py "id")) topics.
Proof.
  induction topics as [|topic rest IH]; intros tick drafts Hall.
  - exists []. rewrite app_nil_r. repeat split.
  - inversion Hall as [|t l [Hid Hkw] Hrest]; subst.
    destruct (lookup (py "id") topic) as [id|] eqn:Eid; [|congruence].
    destruct (lookup (py "keyword") topic) as [kw|] eqn:Ekw; [|congruence].
    destruct (run_loop_step tick drafts topic rest id kw Eid Ekw)
      as (d & Hd & _ & _ & _ & _ & Hstep).
    destruct (IH (S (S tick)) (drafts ++ [d]) Hrest) as (new & Hrun & Hlen & Hids).
    exists (d :: new). rewrite Hstep, Hrun, <- app_assoc.
    split; [reflexivity|]. split; [simpl; now rewrite Hlen|].
    cbn [map]. rewrite Hd, Hids, Eid. reflexivity.
Qed.

Lemma run_loop_raises (topics : list Topic) :
  forall tick drafts,
    Exists lacks_required_field topics ->
    exists key,
      (key = py "id" \/ key = py "keyword") /\
      run_loop isalnum lower utcnow tick drafts topics = Raise (KeyError key).
Proof.
  induction topics as [|topic rest IH]; intros tick drafts Hex.
  - inversion Hex.
  - destruct (lookup (py "keyword") topic) as [kw|] eqn:Ekw.
    + destruct (lookup (py "id") topic) as [id|] eqn:Eid.
      * destruct (run_loop_step tick drafts topic rest id kw Eid Ekw)
          as (d & _ & _ & _ & _ & _ & Hstep).
        rewrite Hstep. apply IH.
        inversion Hex as [t l [H|H]|t l H]; subst; [congruence | congruence | exact H].
      * exists (py "id"). split; [now left|].
        now apply (run_loop_no_id tick drafts topic rest kw).
    + exists (py "keyword"). split; [now right|].
      now apply run_loop_no_keyword.
Qed.

Lemma required_fields_dec (topics : list Topic) :
  Forall has_required_fields topics \/ Exists lacks_required_field topics.
Proof.
  induction topics as [|topic rest [IH|IH]].
  - left. constructor.
  - destruct (lookup (py "id") topic) as [id|] eqn:Eid.
    + destruct (lookup (py "keyword") topic) as [kw|] eqn:Ekw.
      * left. constructor; [|exact IH].
        split; congruence.
      * right. left. now right.
    + right. left. now left.
  - right. now right.
Qed.

(** The stage returns or raises: its loops never run out of fuel. *)
Lemma run_returns_or_raises (topics : list Topic) :
  (exists drafts, run isalnum lower utcnow topics = Ok drafts) \/
  (exists e, run isalnum lower utcnow topics = Raise e).
Proof.
  unfold run. destruct (required_fields_dec topics) as [H|H].
  - left. destruct (run_loop_ok topics 0 [] H) as (new & Hrun & _).
    exists ([] ++ new). exact Hrun.
  - right. destruct (run_loop_raises topics 0 [] H) as (key & _ & Hrun).
    exists (KeyError key). exact Hrun.
Qed.

End ContentFacts.

(** C5. For every list of topics that all have the [id] and [keyword]
    fields, the content stage returns a list of drafts of the same length
    whose topic ids are, position by position, the ids of the topics. *)
Theorem run_preserves_order_and_cardinality
    (isalnum : char -> bool) (lower : char -> str) (utcnow : nat -> datetime)
    (topics : list Topic) :
  Forall has_required_fields topics ->
  exists drafts,
    run isalnum lower utcnow topics = Ok drafts /\
    length drafts = length topics /\
    map (fun d => Some (topic_id d)) drafts = map (lookup (py "id")) topics.
Proof.
  intros H. unfold run.
  destruct (run_loop_ok isalnum lower utcnow topics 0 [] H)
    as (new & Hrun & Hlen & Hids).
  exists new. exact (conj Hrun (conj Hlen Hids)).
Qed.

Lemma run_preserves_order_and_cardinality_witness :
  exists drafts,
    run ascii_isalnum ascii_lower sample_clock sample_topics = Ok drafts /\
    length drafts = length sample_topics /\
    map (fun d => Some (topic_id d)) drafts
    = map (lookup (py "id")) sample_topics.
Proof.
  apply (run_preserves_order_and_cardinality
           ascii_isalnum ascii_lower sample_clock sample_topics).
  repeat constructor; intros H; vm_compute in H; discriminate H.
Defined.

(** C6. When some topic of the list lacks the [id] or the [keyword] field,
    the content stage raises a [KeyError] for one of these two keys and
    returns no list of drafts; the error reaches [run_pipeline], whose
    [try] block stops there: the run entry is marked failed, holds the
    message of the error, and counts no generated article. *)
Theorem malformed_topic_fails_stage
    (isalnum : char -> bool) (lower : char -> str) (utcnow : nat -> datetime)
    (topics : list Topic) :
  Exists lacks_required_field topics ->
  exists key,
    (key = py "id" \/ key = py "keyword") /\
    run isalnum lower utcnow topics = Raise (KeyError key) /\
    (forall drafts, run isalnum lower utcnow topics <> Ok drafts) /\
    forall validation distribution now,
      recorded_entry isalnum lower
        {| discovery_run := Returns topics; validation_run := validation;
           distribution_run := distribution; content_clock := utcnow |} now
      = {| timestamp := isoformat now ++ py "Z"; status := failed;
           generated_topics := len topics; generated_articles := 0%Z;
           published_articles := 0%Z;
           errors := [py "'" ++ key ++ py "'"] |}.
Proof.
  intros H.
  destruct (run_loop_raises isalnum lower utcnow topics 0 [] H)
    as (key & Hkey & Hrun).
  fold (run isalnum lower utcnow topics) in Hrun.
  exists key. split; [exact Hkey|]. split; [exact Hrun|]. split.
  - intros drafts Hok. rewrite Hrun in Hok. discriminate Hok.
  - intros validation distribution now.
    unfold recorded_entry, try_except, try_block, and_then, call, update.
    cbn [discovery_run content_clock of_call].
    rewrite Hrun. reflexivity.
Qed.

Lemma malformed_topic_fails_stage_witness :
  exists key,
    (key = py "id" \/ key = py "keyword") /\
    run ascii_isalnum ascii_lower sample_clock malformed_topics
    = Raise (KeyError key) /\
    (forall drafts,
       run ascii_isalnum ascii_lower sample_clock malformed_topics
       <> Ok drafts) /\
    forall validation distribution now,
      recorded_entry ascii_isalnum ascii_lower
        {| discovery_run := Returns malformed_topics;
           validation_run := validation;
           distribution_run := distribution;
           content_clock := sample_clock |} now
      = {| timestamp := isoformat now ++ py "Z"; status := failed;
           generated_topics := len malformed_topics;
           generated_articles := 0%Z;
           published_articles := 0%Z;
           errors := [py "'" ++ key ++ py "'"] |}.
Proof.
  apply (malformed_topic_fails_stage
           ascii_isalnum ascii_lower sample_clock malformed_topics).
  right. left. right. reflexivity.
Defined.

(** ** The orchestrator *)

Lemma sum_app_one (xs : list Z) (x : Z) :
  fold_right Z.add 0%Z (xs ++ [x]) = (fold_right Z.add 0 xs + x)%Z.
Proof.
  induction xs as [|y xs IH]; simpl; lia.
Qed.

(** On a ledger of the data model the [finally] block raises nothing and
    computes the ledger with the entry recorded. *)
Lemma finalize_ledger (l : PerformanceLedger) (e : RunEntry) :
  finalize (ledger_json l) e = inr (ledger_json (record_run l e)).
Proof.
  unfold finalize, ledger_json, record_run.
  cbn. rewrite !map_app. reflexivity.
Qed.

Lemma record_run_invariant (l : PerformanceLedger) (e : RunEntry) :
  ledger_invariant l -> ledger_invariant (record_run l e).
Proof.
  intros [Hp He]. unfold ledger_invariant, record_run.
  cbn [runs articles_published ledger_errors].
  rewrite !map_app. cbn [map].
  rewrite sum_app_one, concat_app. cbn [concat].
  rewrite app_nil_r, <- Hp, <- He.
  split; reflexivity.
Qed.

Section PipelineFacts.

Variable isalnum : char -> bool.
Variable lower : char -> str.

(** The [try] block returns or raises, and leaves the timestamp of the
    run entry as it was. *)
Lemma try_block_outcome (agents : Agents) (e : RunEntry) :
  timestamp (fst (try_block isalnum lower agents e)) = timestamp e /\
  snd (try_block isalnum lower agents e) <> OutOfFuel.
Proof.
  unfold try_block, and_then, call, update.
  destruct (discovery_run agents) as [topics|x]; cbn [of_call];
    [|split; [reflexivity | discriminate]].
  destruct (run_returns_or_raises isalnum lower (content_clock agents) topics)
    as [[drafts Hrun]|[x Hrun]]; rewrite Hrun;
    [|split; [reflexivity | discriminate]].
  destruct (validation_run agents drafts) as [approved|x]; cbn [of_call];
    [|split; [reflexivity | discriminate]].
  destruct (distribution_run agents approved) as [files|x]; cbn [of_call];
    split; first [reflexivity | discriminate].
Qed.

Lemma try_except_outcome (agents : Agents) (e : RunEntry) :
  timestamp (fst (try_except isalnum lower agents e)) = timestamp e /\
  snd (try_except isalnum lower agents e) <> OutOfFuel.
Proof.
  unfold try_except.
  destruct (try_block_outcome agents e) as [Ht Hf].
  destruct (try_block isalnum lower agents e) as [e' [u|x|]];
    cbn [fst snd] in *.
  - split; [exact Ht | discriminate].
  - destruct (is_Exception x); cbn [fst snd].
    + split; [exact Ht | discriminate].
    + split; [exact Ht | discriminate].
  - contradiction.
Qed.

Lemma recorded_entry_timestamp (agents : Agents) (now : datetime) :
  timestamp (recorded_entry isalnum lower agents now)
  = isoformat now ++ py "Z".
Proof.
  unfold recorded_entry.
  now rewrite (proj1 (try_except_outcome agents _)).
Qed.

(** An invocation that finds a ledger of the data model writes the
    ledger with its run entry recorded, whatever the stages did. *)
Lemma run_pipeline_records (agents : Agents) (now : datetime) (d : disk)
    (l : PerformanceLedger) :
  load_performance (ensure_initial_files d) = ledger_json l ->
  exists ending,
    run_pipeline isalnum lower agents now d
    = (save_performance
         (ledger_json (record_run l (recorded_entry isalnum lower agents now)))
         (ensure_initial_files d),
       ending) /\
    (ending = Completed \/ exists exc, ending = Uncaught exc).
Proof.
  intros Hl. unfold run_pipeline, recorded_entry. cbv zeta. rewrite Hl.
  destruct (try_except_outcome agents
              {| timestamp := isoformat now ++ py "Z"; status := started;
                 generated_topics := 0%Z; generated_articles := 0%Z;
                 published_articles := 0%Z; errors := [] |}) as [_ Hf].
  destruct (try_except isalnum lower agents _) as [e [u|x|]];
    cbn [fst snd] in *.
  - rewrite finalize_ledger. exists Completed.
    split; [reflexivity | now left].
  - rewrite finalize_ledger. exists (Uncaught x).
    split; [reflexivity | right; now exists x].
  - contradiction.
Qed.

(** A ledger file that holds a JSON object without the [runs] key stops
    every invocation in the [finally] block. *)
Lemma run_pipeline_without_runs (agents : Agents) (now : datetime)
    (d : disk) :
  load_performance (ensure_initial_files d) = JObj [] ->
  run_pipeline isalnum lower agents now d
  = (ensure_initial_files d, FinalizationRaised (LedgerKeyError (py "runs"))).
Proof.
  intros Hl. unfold run_pipeline. cbv zeta. rewrite Hl.
  destruct (try_except_outcome agents
              {| timestamp := isoformat now ++ py "Z"; status := started;
                 generated_topics := 0%Z; generated_articles := 0%Z;
                 published_articles := 0%Z; errors := [] |}) as [_ Hf].
  destruct (try_except isalnum lower agents _) as [e [u|x|]];
    cbn [fst snd] in *.
  - reflexivity.
  - reflexivity.
  - contradiction.
Qed.

End PipelineFacts.

(** Loading never raises: a file that is absent or cannot be read or
    parsed gives the empty ledger, any other file the value it holds. *)
Lemma load_performance_cases (d : disk) :
  match performance_file d with
  | Holds v => load_performance d = v
  | _ => load_performance d = default_ledger
  end.
Proof.
  unfold load_performance. destruct (performance_file d); reflexivity.
Qed.

(** C2. Whatever the stages do (return, raise an exception the [except]
    clause catches, or raise one it does not catch), an invocation that
    starts from the ledger [l] writes to the ledger file the ledger [l]
    with the new run entry recorded: [runs] has exactly one more entry,
    the new one at the end; [articles_published] has grown by the
    [published_articles] of the new entry; [last_run] is the timestamp of
    the new entry, which is the time the invocation started. *)
Theorem finalization_always_runs
    (isalnum : char -> bool) (lower : char -> str)
    (agents : Agents) (now : datetime) (d : disk) (l : PerformanceLedger) :
  load_performance (ensure_initial_files d) = ledger_json l ->
  let e := recorded_entry isalnum lower agents now in
  let l' := record_run l e in
  (exists ending,
     run_pipeline isalnum lower agents now d
     = (save_performance (ledger_json l') (ensure_initial_files d), ending) /\
     (ending = Completed \/ exists exc, ending = Uncaught exc)) /\
  performance_file (fst (run_pipeline isalnum lower agents now d))
  = Holds (ledger_json l') /\
  runs l' = runs l ++ [e] /\
  length (runs l') = S (length (runs l)) /\
  articles_published l' = (articles_published l + published_articles e)%Z /\
  last_run l' = Some (timestamp e) /\
  timestamp e = isoformat now ++ py "Z".
Proof.
  intros Hl e l'.
  destruct (run_pipeline_records isalnum lower agents now d l Hl)
    as (ending & Hrun & Hending).
  fold e in Hrun. fold l' in Hrun.
  split; [exists ending; exact (conj Hrun Hending)|].
  split; [rewrite Hrun; reflexivity|].
  split; [reflexivity|].
  split; [unfold l', record_run; cbn [runs]; rewrite length_app; simpl; lia|].
  split; [reflexivity|].
  split; [reflexivity|].
  apply recorded_entry_timestamp.
Qed.

Lemma finalization_always_runs_witness :
  let e := recorded_entry ascii_isalnum ascii_lower
             (passthrough_agents malformed_topics) sample_instant in
  let l' := record_run empty_ledger e in
  (exists ending,
     run_pipeline ascii_isalnum ascii_lower
       (passthrough_agents malformed_topics) sample_instant empty_disk
     = (save_performance (ledger_json l') (ensure_initial_files empty_disk),
        ending) /\
     (ending = Completed \/ exists exc, ending = Uncaught exc)) /\
  performance_file
    (fst (run_pipeline ascii_isalnum ascii_lower
            (passthrough_agents malformed_topics) sample_instant empty_disk))
  = Holds (ledger_json l') /\
  runs l' = runs empty_ledger ++ [e] /\
  length (runs l') = S (length (runs empty_ledger)) /\
  articles_published l'
  = (articles_published empty_ledger + published_articles e)%Z /\
  last_run l' = Some (timestamp e) /\
  timestamp e = isoformat sample_instant ++ py "Z".
Proof.
  exact (finalization_always_runs ascii_isalnum ascii_lower
           (passthrough_agents malformed_topics) sample_instant
           empty_disk empty_ledger eq_refl).
Defined.

(** C8. An invocation that starts from a ledger satisfying the invariant
    of the data model leaves in the ledger file a ledger that satisfies
    it. *)
Theorem ledger_invariant_preserved
    (isalnum : char -> bool) (lower : char -> str)
    (agents : Agents) (now : datetime) (d : disk) (l : PerformanceLedger) :
  load_performance (ensure_initial_files d) = ledger_json l ->
  ledger_invariant l ->
  performance_file (fst (run_pipeline isalnum lower agents now d))
  = Holds (ledger_json
             (record_run l (recorded_entry isalnum lower agents now))) /\
  ledger_invariant (record_run l (recorded_entry isalnum lower agents now)).
Proof.
  intros Hl Hinv.
  destruct (run_pipeline_records isalnum lower agents now d l Hl)
    as (ending & Hrun & _).
  split; [rewrite Hrun; reflexivity|].
  apply record_run_invariant. exact Hinv.
Qed.

Lemma ledger_invariant_preserved_witness :
  performance_file
    (fst (run_pipeline ascii_isalnum ascii_lower
            (passthrough_agents sample_topics) sample_instant empty_disk))
  = Holds (ledger_json
             (record_run empty_ledger
                (recorded_entry ascii_isalnum ascii_lower
                   (passthrough_agents sample_topics) sample_instant))) /\
  ledger_invariant
    (record_run empty_ledger
       (recorded_entry ascii_isalnum ascii_lower
          (passthrough_agents sample_topics) sample_instant)).
Proof.
  apply (ledger_invariant_preserved ascii_isalnum ascii_lower
           (passthrough_agents sample_topics) sample_instant
           empty_disk empty_ledger).
  - reflexivity.
  - split; reflexivity.
Defined.

(** C7. A ledger file that holds the JSON object [{}] is loaded as it is,
    without falling back to the empty ledger, and the invocation then ends
    with the [KeyError] that [performance["runs"]] raises in the [finally]
    block: no ledger is written. *)
Theorem ledger_without_runs_is_fatal
    (isalnum : char -> bool) (lower : char -> str)
    (agents : Agents) (now : datetime)
    (topics index : option str) :
  load_performance
    (ensure_initial_files
       {| topics_file := topics; performance_file := Holds (JObj []);
          index_file := index |})
  = JObj [] /\
  run_pipeline isalnum lower agents now
    {| topics_file := topics; performance_file := Holds (JObj []);
       index_file := index |}
  = (ensure_initial_files
       {| topics_file := topics; performance_file := Holds (JObj []);
          index_file := index |},
     FinalizationRaised (LedgerKeyError (py "runs"))) /\
  performance_file
    (fst (run_pipeline isalnum lower agents now
            {| topics_file := topics; performance_file := Holds (JObj []);
               index_file := index |}))
  = Holds (JObj []).
Proof.
  split; [reflexivity|].
  rewrite (run_pipeline_without_runs isalnum lower agents now
             {| topics_file := topics; performance_file := Holds (JObj []);
                index_file := index |} eq_refl).
  split; reflexivity.
Qed.

(** * Further properties *)

(** ** Slug derivation *)

Lemma join_nil_cons (p : str) (ps : list str) :
  join [] (p :: ps) = p ++ join [] ps.
Proof.
  destruct ps; cbn [join app]; [now rewrite app_nil_r | reflexivity].
Qed.

(** The shape of [replace] of two hyphens by one, as an induction
    principle. *)
Lemma replace_hyphens_ind (Q : str -> str -> Prop) :
  Q [] [] ->
  (forall rest r, Q rest r -> Q (hyphen :: hyphen :: rest) (hyphen :: r)) ->
  (forall c s r, startswith [hyphen; hyphen] (c :: s) = false ->
                 Q s r -> Q (c :: s) (c :: r)) ->
  forall s, Q s (replace [hyphen; hyphen] [hyphen] s).
Proof.
  intros Hnil Hhy Hother s.
  assert (H : forall n s, length s <= n ->
                          Q s (replace [hyphen; hyphen] [hyphen] s)).
  { clear s. induction n as [|n IH]; intros s Hn.
    - destruct s; [exact Hnil | simpl in Hn; lia].
    - destruct s as [|c s]; [exact Hnil|].
      destruct (startswith [hyphen; hyphen] (c :: s)) eqn:Hs.
      + apply startswith_hyphens in Hs as [-> [rest ->]].
        rewrite replace_hyphens. apply Hhy. apply IH. simpl in Hn. lia.
      + rewrite replace_other by exact Hs. apply Hother; [exact Hs|].
        apply IH. simpl in Hn. lia. }
  exact (H (length s) s (Nat.le_refl _)).
Qed.

Lemma replace_Forall (P : char -> Prop) (s : str) :
  Forall P s -> Forall P (replace [hyphen; hyphen] [hyphen] s).
Proof.
  apply (replace_hyphens_ind (fun s r => Forall P s -> Forall P r)).
  - intros _. constructor.
  - intros rest r IH H. inversion H as [|x l Hx Hl]; subst.
    inversion Hl; subst. constructor; [exact Hx | now apply IH].
  - intros c t r _ IH H. inversion H; subst. constructor; [assumption | now apply IH].
Qed.

Lemma dropwhile_Forall (P : char -> Prop) (p : char -> bool) (s : str) :
  Forall P s -> Forall P (dropwhile p s).
Proof.
  induction 1 as [|c s Hc Hs IH]; [constructor|]. simpl.
  destruct (p c); [exact IH | now constructor].
Qed.

Lemma strip_by_Forall (P : char -> Prop) (p : char -> bool) (s : str) :
  Forall P s -> Forall P (strip_by p s).
Proof.
  intros H. unfold strip_by, rstrip_by, lstrip_by.
  apply Forall_rev, dropwhile_Forall, Forall_rev, dropwhile_Forall, H.
Qed.

Lemma firstn_Forall (P : char -> Prop) (n : nat) (s : str) :
  Forall P s -> Forall P (firstn n s).
Proof.
  intros H. rewrite <- (firstn_skipn n s) in H.
  now apply Forall_app in H as [H _].
Qed.

(** A stripped string does not end with a stripped character. *)
Lemma strip_by_last (p : char -> bool) (s front : str) (c : char) :
  strip_by p s = front ++ [c] -> p c = false.
Proof.
  unfold strip_by, rstrip_by. intros H.
  apply (f_equal (@rev char)) in H.
  rewrite rev_involutive, rev_app_distr in H. simpl in H.
  exact (dropwhile_head p _ c (rev front) H).
Qed.

Lemma mem_hyphen (c : char) : mem c [hyphen] = true <-> c = hyphen.
Proof.
  unfold mem. simpl. rewrite orb_false_r. apply N.eqb_eq.
Qed.

(** Stripping hyphens changes nothing in a string that neither starts
    nor ends with one. *)
Lemma strip_chars_fixed (s : str) :
  (forall rest, s <> hyphen :: rest) ->
  (forall front, s <> front ++ [hyphen]) ->
  strip_chars [hyphen] s = s.
Proof.
  intros Hfirst Hlast. unfold strip_chars, strip_by, rstrip_by, lstrip_by.
  assert (Hl : dropwhile (fun c => mem c [hyphen]) s = s).
  { destruct s as [|c s]; [reflexivity|]. cbn [dropwhile].
    destruct (mem c [hyphen]) eqn:Hc; [|reflexivity].
    apply mem_hyphen in Hc. subst c. now destruct (Hfirst s). }
  rewrite Hl.
  destruct (rev s) as [|c t] eqn:Hr.
  - apply (f_equal (@rev char)) in Hr. rewrite rev_involutive in Hr.
    now subst s.
  - cbn [dropwhile].
    destruct (mem c [hyphen]) eqn:Hc.
    + apply mem_hyphen in Hc. subst c.
      apply (f_equal (@rev char)) in Hr. rewrite rev_involutive in Hr.
      simpl in Hr. now destruct (Hlast (rev t)).
    + rewrite <- Hr. apply rev_involutive.
Qed.

Section SlugifyMore.

Variable isalnum : char -> bool.
Variable lower : char -> str.

Lemma collapse_loop_Forall (P : char -> Prop) (fuel : nat) :
  forall s r,
    collapse_loop fuel s = Some r -> Forall P s -> Forall P r.
Proof.
  induction fuel as [|fuel IH]; intros s r H Hs;
    rewrite collapse_loop_unfold in H;
    destruct (contains [hyphen; hyphen] s); try discriminate;
    try (injection H as <-; exact Hs).
  apply (IH _ _ H). now apply replace_Forall.
Qed.


Lemma joined_Forall (P : char -> Prop) (text : str) :
  P hyphen ->
  (forall c, In c text -> isalnum c = true -> Forall P (lower c)) ->
  Forall P (join [] (map (slug_char isalnum lower) text)).
Proof.
  intros Hhy. induction text as [|c text IH]; intros Hl; [constructor|].
  cbn [map]. rewrite join_nil_cons. apply Forall_app. split.
  - unfold slug_char. destruct (isalnum c) eqn:Hc.
    + apply Hl; [now left | exact Hc].
    + now constructor.
  - apply IH. intros x Hx. apply Hl. now right.
Qed.

(** Whatever holds of the hyphen and of the lower-case forms of the
    alphanumeric characters of a text holds of every character of its
    slug. *)
Lemma _slugify_Forall (P : char -> Prop) (text slug : str) :
  P hyphen ->
  (forall c, In c text -> isalnum c = true -> Forall P (lower c)) ->
  _slugify isalnum lower text = Some slug ->
  Forall P slug.
Proof.
  intros Hhy Hl. unfold _slugify.
  destruct (collapse_loop _ _) as [r|] eqn:Hr; [|discriminate].
  intros H.
  assert (Hslug : slug = firstn 80 (strip_chars [hyphen] r)) by congruence.
  clear H. subst slug.
  apply firstn_Forall. unfold strip_chars. apply strip_by_Forall.
  apply (collapse_loop_Forall P _ _ _ Hr).
  now apply joined_Forall.
Qed.

(** A slug of fewer than 80 characters was not cut. *)
Lemma _slugify_short (text slug : str) :
  _slugify isalnum lower text = Some slug ->
  length slug < 80 ->
  forall front, slug <> front ++ [hyphen].
Proof.
  unfold _slugify.
  destruct (collapse_loop _ _) as [r|] eqn:Hr; [|discriminate].
  intros H Hlen.
  assert (Hslug : slug = firstn 80 (strip_chars [hyphen] r)) by congruence.
  clear H. subst slug. intros front Hf.
  assert (Hall : firstn 80 (strip_chars [hyphen] r) = strip_chars [hyphen] r).
  { apply firstn_all2. rewrite length_firstn in Hlen. lia. }
  rewrite Hall in Hf. unfold strip_chars in Hf.
  apply strip_by_last in Hf. discriminate.
Qed.


End SlugifyMore.


(** X1. For every text the slug derivation returns (its collapsing loop
    ends), and the slug has at most 80 characters, does not start with a
    hyphen and holds no two hyphens in a row. *)
Theorem slug_is_returned_and_well_formed
    (isalnum : char -> bool) (lower : char -> str) (text : str) :
  exists slug,
    _slugify isalnum lower text = Some slug /\
    length slug <= 80 /\
    (forall rest, slug <> hyphen :: rest) /\
    contains [hyphen; hyphen] slug = false.
Proof.
  destruct (_slugify_total isalnum lower text) as [slug H].
  exists slug. split; [exact H|].
  exact (_slugify_shape isalnum lower text slug H).
Qed.

(** X2. A slug of fewer than 80 characters does not end with a hyphen:
    stripping hyphens from it changes nothing. *)
Theorem short_slug_has_no_trailing_hyphen
    (isalnum : char -> bool) (lower : char -> str) (text slug : str) :
  _slugify isalnum lower text = Some slug ->
  length slug < 80 ->
  strip_chars [hyphen] slug = slug /\
  forall front, slug <> front ++ [hyphen].
Proof.
  intros H Hlen.
  pose proof (_slugify_short isalnum lower text slug H Hlen) as Hlast.
  destruct (_slugify_shape isalnum lower text slug H) as (_ & Hfirst & _).
  split; [|exact Hlast].
  now apply strip_chars_fixed.
Qed.

Lemma short_slug_has_no_trailing_hyphen_witness :
  strip_chars [hyphen] (py "vim-vs-vscode") = py "vim-vs-vscode" /\
  forall front, py "vim-vs-vscode" <> front ++ [hyphen].
Proof.
  apply (short_slug_has_no_trailing_hyphen ascii_isalnum ascii_lower
           (py "Vim vs. VSCode!") (py "vim-vs-vscode")).
  - vm_compute. reflexivity.
  - vm_compute. lia.
Defined.



(** X4. Every character of a slug is a hyphen or belongs to the
    lower-case form of an alphanumeric character of the text. *)
Theorem slug_characters
    (isalnum : char -> bool) (lower : char -> str) (text slug : str) :
  _slugify isalnum lower text = Some slug ->
  Forall (fun x => x = hyphen \/
                   exists c, In c text /\ isalnum c = true /\ In x (lower c))
         slug.
Proof.
  intros H.
  apply (_slugify_Forall isalnum lower _ text slug); [now left | | exact H].
  intros c Hin Hc. apply Forall_forall. intros x Hx. right.
  exists c. auto.
Qed.

Lemma slug_characters_witness :
  Forall (fun x => x = hyphen \/
                   exists c, In c (py "Vim vs. VSCode!") /\
                             ascii_isalnum c = true /\ In x (ascii_lower c))
         (py "vim-vs-vscode").
Proof.
  apply (slug_characters ascii_isalnum ascii_lower
           (py "Vim vs. VSCode!") (py "vim-vs-vscode")).
  vm_compute. reflexivity.
Defined.

(** X5. The slug of a text without alphanumeric character, the empty text
    included, is the empty string. *)
Theorem slug_of_symbols_is_empty
    (isalnum : char -> bool) (lower : char -> str) (text : str) :
  Forall (fun c => isalnum c = false) text ->
  _slugify isalnum lower text = Some [].
Proof.
  intros Hsym.
  destruct (_slugify_total isalnum lower text) as [slug H].
  assert (Hall : Forall (fun x => x = hyphen) slug).
  { apply (_slugify_Forall isalnum lower _ text slug);
      [reflexivity | | exact H].
    intros c Hin Hc. rewrite Forall_forall in Hsym.
    rewrite (Hsym c Hin) in Hc. discriminate. }
  destruct (_slugify_shape isalnum lower text slug H) as (_ & Hfirst & _).
  destruct slug as [|x rest]; [exact H|].
  inversion Hall as [|y l Hx Hl]; subst.
  now destruct (Hfirst rest).
Qed.

Lemma slug_of_symbols_is_empty_witness :
  _slugify ascii_isalnum ascii_lower (py "?! -- (*)") = Some [].
Proof.
  apply (slug_of_symbols_is_empty ascii_isalnum ascii_lower (py "?! -- (*)")).
  repeat constructor.
Defined.

(** ** The article generator *)

Lemma padded_app (n : nat) :
  forall content,
    padded n content
    = content ++ concat (repeat ([newline; newline] ++ padding) n).
Proof.
  induction n as [|n IH]; intros content; cbn [padded repeat concat].
  - now rewrite app_nil_r.
  - rewrite IH, <- app_assoc. reflexivity.
Qed.

Lemma word_count_padded (n : nat) :
  forall content, word_count (padded n content) = word_count content + 44 * n.
Proof.
  induction n as [|n IH]; intros content; cbn [padded].
  - lia.
  - rewrite IH, word_count_padded_once. lia.
Qed.

(** The loop makes the least number of passes that reaches the
    threshold. *)
Lemma pad_loop_exact (fuel : nat) :
  forall content,
    MIN_WORDS <= word_count content + 44 * fuel ->
    exists n,
      pad_loop fuel content = Some (padded n content) /\
      MIN_WORDS <= word_count content + 44 * n /\
      (n = 0 \/ word_count content + 44 * n < MIN_WORDS + 44).
Proof.
  induction fuel as [|fuel IH]; intros content H; rewrite pad_loop_unfold;
    destruct (Nat.ltb_spec (word_count content) MIN_WORDS) as [Hlt|Hge].
  - lia.
  - exists 0. split; [reflexivity|]. split; [lia | now left].
  - destruct (IH (content ++ [newline; newline] ++ padding)) as (n & Hrun & Hw & Hmin).
    { rewrite word_count_padded_once. lia. }
    rewrite word_count_padded_once in Hw, Hmin.
    exists (S n). split; [exact Hrun|]. split; [lia|]. right.
    destruct Hmin as [->|Hmin]; lia.
  - exists 0. split; [reflexivity|]. split; [lia | now left].
Qed.

Lemma pad_exact (content : str) :
  exists n,
    (if word_count content <? MIN_WORDS
     then pad_loop MIN_WORDS content
     else Some content)
    = Some (content ++ concat (repeat ([newline; newline] ++ padding) n)) /\
    word_count (content ++ concat (repeat ([newline; newline] ++ padding) n))
    = word_count content + 44 * n /\
    MIN_WORDS <= word_count content + 44 * n /\
    (n = 0 \/ word_count content + 44 * n < MIN_WORDS + 44).
Proof.
  destruct (pad_loop_exact MIN_WORDS content) as (n & Hrun & Hw & Hmin).
  { unfold MIN_WORDS. lia. }
  destruct (Nat.ltb_spec (word_count content) MIN_WORDS) as [Hlt|Hge].
  - exists n. rewrite <- padded_app. split; [exact Hrun|].
    split; [apply word_count_padded|]. split; assumption.
  - exists 0. cbn [repeat concat]. rewrite app_nil_r.
    split; [reflexivity|]. split; [lia|]. split; [lia | now left].
Qed.

(** X6. The article is the nine sections joined by blank lines, followed
    by some number of copies of a blank line and the padding sentence;
    each copy adds 44 words; the article has at least 1200 words, and
    when a copy was added it has fewer than 1244: the loop stops at the
    first count that reaches the threshold. *)
Theorem article_is_sections_and_least_padding
    (keyword category intent : str) (utcnow : datetime) :
  exists n,
    generate_long_form_article keyword category intent utcnow
    = Some (join [newline; newline]
              (body_sections keyword (strftime_B_Y utcnow))
            ++ concat (repeat ([newline; newline] ++ padding) n)) /\
    word_count (join [newline; newline]
                  (body_sections keyword (strftime_B_Y utcnow))
                ++ concat (repeat ([newline; newline] ++ padding) n))
    = word_count (join [newline; newline]
                    (body_sections keyword (strftime_B_Y utcnow))) + 44 * n /\
    MIN_WORDS
    <= word_count (join [newline; newline]
                     (body_sections keyword (strftime_B_Y utcnow))) + 44 * n /\
    (n = 0 \/
     word_count (join [newline; newline]
                   (body_sections keyword (strftime_B_Y utcnow))) + 44 * n
     < MIN_WORDS + 44).
Proof.
  exact (pad_exact (join [newline; newline]
                      (body_sections keyword (strftime_B_Y utcnow)))).
Qed.

(** ** The content stage *)

Section ContentMore.

Variable isalnum : char -> bool.
Variable lower : char -> str.
Variable utcnow : nat -> datetime.

Lemma run_loop_drafts (topics : list Topic) :
  forall tick drafts,
    Forall has_required_fields topics ->
    exists new,
      run_loop isalnum lower utcnow tick drafts topics = Ok (drafts ++ new) /\
      Forall2 (draft_of isalnum lower utcnow) topics new.
Proof.
  induction topics as [|topic rest IH]; intros tick drafts Hall.
  - exists []. rewrite app_nil_r. split; [reflexivity | constructor].
  - inversion Hall as [|t l [Hid Hkw] Hrest]; subst.
    destruct (lookup (py "id") topic) as [id|] eqn:Eid; [|congruence].
    destruct (lookup (py "keyword") topic) as [kw|] eqn:Ekw; [|congruence].
    destruct (run_loop_step isalnum lower utcnow tick drafts topic rest id kw
                Eid Ekw) as (d & Hd & Ht & Hs & Hg & Hc & Hstep).
    destruct (IH (S (S tick)) (drafts ++ [d]) Hrest) as (new & Hrun & Hnew).
    exists (d :: new). rewrite Hstep, Hrun, <- app_assoc.
    split; [reflexivity|]. constructor; [|exact Hnew].
    unfold draft_of. rewrite Hd, Ht, Eid, Ekw.
    split; [reflexivity|]. split; [reflexivity|]. split; [exact Hs|].
    split.
    + destruct (generate_padded kw (get topic (py "category") [])
                  (get topic (py "intent") []) (utcnow tick))
        as (n & _ & _ & Hgen & Hw).
      rewrite Hgen in Hg. injection Hg as Hg. rewrite <- Hg. exact Hw.
    + exists tick. split; [exact Hg | exact Hc].
Qed.

(** The topics before the first malformed one are passed over without
    effect on what the loop raises. *)
Lemma run_loop_prefix (good : list Topic) :
  forall tick drafts more,
    Forall has_required_fields good ->
    exists tick' drafts',
      run_loop isalnum lower utcnow tick drafts (good ++ more)
      = run_loop isalnum lower utcnow tick' drafts' more.
Proof.
  induction good as [|topic rest IH]; intros tick drafts more Hall.
  - exists tick, drafts. reflexivity.
  - inversion Hall as [|t l [Hid Hkw] Hrest]; subst.
    destruct (lookup (py "id") topic) as [id|] eqn:Eid; [|congruence].
    destruct (lookup (py "keyword") topic) as [kw|] eqn:Ekw; [|congruence].
    destruct (run_loop_step isalnum lower utcnow tick drafts topic
                (rest ++ more) id kw Eid Ekw) as (d & _ & _ & _ & _ & _ & Hstep).
    destruct (IH (S (S tick)) (drafts ++ [d]) more Hrest) as (tick' & drafts' & H).
    exists tick', drafts'. rewrite <- H. exact Hstep.
Qed.

Lemma run_ok_length (topics : list Topic) (drafts : list DraftArticle) :
  run isalnum lower utcnow topics = Ok drafts ->
  length drafts = length topics.
Proof.
  unfold run. intros H.
  destruct (required_fields_dec topics) as [Hall|Hex].
  - destruct (run_loop_ok isalnum lower utcnow topics 0 [] Hall)
      as (new & Hrun & Hlen & _).
    rewrite Hrun in H. injection H as <-. exact Hlen.
  - destruct (run_loop_raises isalnum lower utcnow topics 0 [] Hex)
      as (key & _ & Hrun).
    rewrite Hrun in H. discriminate H.
Qed.

End ContentMore.

(** X7. For topics that all have the [id] and [keyword] fields the stage
    returns one draft for each topic, in order, whose [topic_id] and
    [title] are the [id] and [keyword] of the topic, whose [slug] is the
    slug of the title, whose [content] is the article generated for the
    keyword with the category and intent of the topic (empty when
    missing) and has at least 1200 words, and whose [created_at] is a
    reading of the clock taken after the article was generated, followed
    by [Z]. *)
Theorem drafts_are_built_from_topics
    (isalnum : char -> bool) (lower : char -> str) (utcnow : nat -> datetime)
    (topics : list Topic) :
  Forall has_required_fields topics ->
  exists drafts,
    run isalnum lower utcnow topics = Ok drafts /\
    Forall2 (draft_of isalnum lower utcnow) topics drafts.
Proof.
  intros H. unfold run.
  destruct (run_loop_drafts isalnum lower utcnow topics 0 [] H)
    as (new & Hrun & Hnew).
  exists new. exact (conj Hrun Hnew).
Qed.

Lemma drafts_are_built_from_topics_witness :
  exists drafts,
    run ascii_isalnum ascii_lower sample_clock sample_topics = Ok drafts /\
    Forall2 (draft_of ascii_isalnum ascii_lower sample_clock)
      sample_topics drafts.
Proof.
  apply (drafts_are_built_from_topics
           ascii_isalnum ascii_lower sample_clock sample_topics).
  repeat constructor; intros H; vm_compute in H; discriminate H.
Defined.

(** X8. The first topic that lacks a field decides what the stage
    raises, whatever follows it: the [KeyError] names [keyword] when the
    topic lacks the keyword, also when it lacks the id too, and [id]
    otherwise. *)
Theorem first_malformed_topic_decides
    (isalnum : char -> bool) (lower : char -> str) (utcnow : nat -> datetime)
    (good : list Topic) (bad : Topic) (rest : list Topic) :
  Forall has_required_fields good ->
  lacks_required_field bad ->
  run isalnum lower utcnow (good ++ bad :: rest)
  = Raise (KeyError match lookup (py "keyword") bad with
                    | None => py "keyword"
                    | Some _ => py "id"
                    end).
Proof.
  intros Hgood Hbad. unfold run.
  destruct (run_loop_prefix isalnum lower utcnow good 0 [] (bad :: rest) Hgood)
    as (tick & drafts & ->).
  destruct (lookup (py "keyword") bad) as [kw|] eqn:Ekw.
  - destruct Hbad as [Hid|Hkw]; [|congruence].
    exact (run_loop_no_id isalnum lower utcnow tick drafts bad rest kw Ekw Hid).
  - exact (run_loop_no_keyword isalnum lower utcnow tick drafts bad rest Ekw).
Qed.

Lemma first_malformed_topic_decides_witness :
  run ascii_isalnum ascii_lower sample_clock
    (sample_topics ++ [ (py "category", py "editors") ] :: sample_topics)
  = Raise (KeyError match lookup (py "keyword")
                            [ (py "category", py "editors") ] with
                    | None => py "keyword"
                    | Some _ => py "id"
                    end).
Proof.
  apply (first_malformed_topic_decides ascii_isalnum ascii_lower sample_clock
           sample_topics [ (py "category", py "editors") ] sample_topics).
  - repeat constructor; intros H; vm_compute in H; discriminate H.
  - left. reflexivity.
Defined.

(** ** The orchestrator and the ledger *)

Lemma lookup_setitem_same {V : Type} (key : str) (v : V) (d : list (str * V)) :
  lookup key (setitem key v d) = Some v.
Proof.
  induction d as [|[k w] d IH]; cbn [setitem lookup].
  - now rewrite str_eqb_refl.
  - destruct (str_eqb k key) eqn:Hk; cbn [lookup]; rewrite Hk;
      [reflexivity | exact IH].
Qed.

Lemma lookup_setitem_other {V : Type} (key key' : str) (v : V)
    (d : list (str * V)) :
  key <> key' -> lookup key' (setitem key v d) = lookup key' d.
Proof.
  intros Hne. induction d as [|[k w] d IH]; cbn [setitem lookup].
  - destruct (str_eqb key key') eqn:Hk; [|reflexivity].
    apply str_eqb_eq in Hk. contradiction.
  - destruct (str_eqb k key) eqn:Hk; cbn [lookup].
    + apply str_eqb_eq in Hk. subst k.
      destruct (str_eqb key key') eqn:Hk'; [|reflexivity].
      apply str_eqb_eq in Hk'. contradiction.
    + destruct (str_eqb k key'); [reflexivity | exact IH].
Qed.

Ltac keys_differ :=
  let H := fresh in intros H; vm_compute in H; discriminate H.

(** The [finally] block in terms of the ledger it was given: the four
    keys it writes are distinct, so what it reads after a write is what
    the ledger held. *)
Lemma finalize_unfold (d : list (str * json)) (e : RunEntry) :
  finalize (JObj d) e =
  match lookup (py "runs") d with
  | None => inl (LedgerKeyError (py "runs"))
  | Some (JArr rs) =>
      match add_count match lookup (py "articles_published") d with
                      | Some v => v
                      | None => JInt 0%Z
                      end (published_articles e) with
      | None => inl LedgerTypeError
      | Some total =>
          match match lookup (py "errors") d with
                | Some v => v
                | None => JArr []
                end with
          | JArr es =>
              inr (JObj (setitem (py "errors")
                           (JArr (es ++ map JStr (errors e)))
                           (setitem (py "articles_published") total
                              (setitem (py "last_run") (JStr (timestamp e))
                                 (setitem (py "runs")
                                    (JArr (rs ++ [entry_json e])) d)))))
          | _ => inl LedgerAttributeError
          end
      end
  | Some _ => inl LedgerAttributeError
  end.
Proof.
  unfold finalize.
  destruct (lookup (py "runs") d) as [[]|]; try reflexivity.
  cbv zeta.
  rewrite !(lookup_setitem_other (py "last_run") (py "articles_published"))
    by keys_differ.
  rewrite !(lookup_setitem_other (py "runs") (py "articles_published"))
    by keys_differ.
  destruct (add_count _ _) as [total|]; [|reflexivity].
  rewrite !(lookup_setitem_other (py "articles_published") (py "errors"))
    by keys_differ.
  rewrite !(lookup_setitem_other (py "last_run") (py "errors"))
    by keys_differ.
  rewrite !(lookup_setitem_other (py "runs") (py "errors"))
    by keys_differ.
  reflexivity.
Qed.

Lemma finalize_usable (performance : json) (e : RunEntry) :
  (exists p, finalize performance e = inr p) <-> ledger_usable performance.
Proof.
  unfold ledger_usable. split.
  - intros [p H].
    destruct performance as [| | | | | |d]; try discriminate H.
    rewrite finalize_unfold in H.
    destruct (lookup (py "runs") d) as [[| | | | |rs|]|] eqn:Hruns;
      try discriminate H.
    exists d, rs. split; [reflexivity|]. split; [exact Hruns|].
    destruct (lookup (py "articles_published") d) as [[]|];
      cbn [add_count] in H; try discriminate H;
      (split; [exact I|]);
      destruct (lookup (py "errors") d) as [[]|];
      try discriminate H; exact I.
  - intros (d & rs & -> & Hruns & Hpub & Herr).
    rewrite finalize_unfold, Hruns.
    destruct (lookup (py "articles_published") d) as [[]|];
      try contradiction; cbn [add_count];
      destruct (lookup (py "errors") d) as [[]|];
      try contradiction; eexists; reflexivity.
Qed.

Section PipelineMore.

Variable isalnum : char -> bool.
Variable lower : char -> str.

(** What the [try] block does to the run entry, by the stage that
    raises, if any. *)
Lemma try_block_cases (agents : Agents) (e : RunEntry) :
  (exists topics drafts approved files,
     discovery_run agents = Returns topics /\
     run isalnum lower (content_clock agents) topics = Ok drafts /\
     validation_run agents drafts = Returns approved /\
     distribution_run agents approved = Returns files /\
     try_block isalnum lower agents e
     = (set_status success
          (set_published_articles (len files)
             (set_generated_articles (len drafts)
                (set_generated_topics (len topics) e))),
        Ok tt)) \/
  (exists exc,
     discovery_run agents = Raises exc /\
     try_block isalnum lower agents e = (e, Raise exc)) \/
  (exists topics exc,
     discovery_run agents = Returns topics /\
     run isalnum lower (content_clock agents) topics = Raise exc /\
     try_block isalnum lower agents e
     = (set_generated_topics (len topics) e, Raise exc)) \/
  (exists topics drafts exc,
     discovery_run agents = Returns topics /\
     run isalnum lower (content_clock agents) topics = Ok drafts /\
     (validation_run agents drafts = Raises exc \/
      exists approved,
        validation_run agents drafts = Returns approved /\
        distribution_run agents approved = Raises exc) /\
     try_block isalnum lower agents e
     = (set_generated_articles (len drafts)
          (set_generated_topics (len topics) e),
        Raise exc)).
Proof.
  unfold try_block, and_then, call, update.
  destruct (discovery_run agents) as [topics|x]; cbn [of_call].
  2: { right. left. exists x. split; reflexivity. }
  destruct (run isalnum lower (content_clock agents) topics)
    as [drafts|x|] eqn:Hrun.
  3: { destruct (run_returns_or_raises isalnum lower (content_clock agents)
                   topics) as [[? H]|[? H]]; rewrite H in Hrun;
         discriminate Hrun. }
  2: { right. right. left. exists topics, x.
       split; [reflexivity|]. split; [exact Hrun | reflexivity]. }
  destruct (validation_run agents drafts) as [approved|x] eqn:Hval;
    cbn [of_call].
  2: { right. right. right. exists topics, drafts, x.
       split; [reflexivity|]. split; [exact Hrun|].
       split; [now left | reflexivity]. }
  destruct (distribution_run agents approved) as [files|x] eqn:Hdis;
    cbn [of_call].
  - left. exists topics, drafts, approved, files.
    split; [reflexivity|]. split; [exact Hrun|]. split; [exact Hval|].
    split; [exact Hdis | reflexivity].
  - right. right. right. exists topics, drafts, x.
    split; [reflexivity|]. split; [exact Hrun|]. split; [|reflexivity].
    right. exists approved. split; [exact Hval | exact Hdis].
Qed.

Lemma recorded_entry_unfold (agents : Agents) (now : datetime) :
  recorded_entry isalnum lower agents now
  = fst (try_except isalnum lower agents (started_entry now)).
Proof. reflexivity. Qed.

Lemma try_except_returned (agents : Agents) (e e' : RunEntry) :
  try_block isalnum lower agents e = (e', Ok tt) ->
  try_except isalnum lower agents e = (e', Ok tt).
Proof. intros H. unfold try_except. now rewrite H. Qed.

Lemma try_except_caught (agents : Agents) (e e' : RunEntry) (exc : exn) :
  try_block isalnum lower agents e = (e', Raise exc) ->
  is_Exception exc = true ->
  try_except isalnum lower agents e
  = (append_error (str_of_exn exc) (set_status failed e'), Ok tt).
Proof. intros H Hx. unfold try_except. now rewrite H, Hx. Qed.

Lemma try_except_uncaught (agents : Agents) (e e' : RunEntry) (exc : exn) :
  try_block isalnum lower agents e = (e', Raise exc) ->
  is_Exception exc = false ->
  try_except isalnum lower agents e = (e', Raise exc).
Proof. intros H Hx. unfold try_except. now rewrite H, Hx. Qed.

(** The run entry of every invocation: its status, errors and counts. *)
Lemma recorded_entry_cases (agents : Agents) (now : datetime) :
  ((status (recorded_entry isalnum lower agents now) = success /\
    errors (recorded_entry isalnum lower agents now) = [] /\
    generated_articles (recorded_entry isalnum lower agents now)
    = generated_topics (recorded_entry isalnum lower agents now)) \/
   (status (recorded_entry isalnum lower agents now) = failed /\
    published_articles (recorded_entry isalnum lower agents now) = 0%Z /\
    exists exc,
      is_Exception exc = true /\
      errors (recorded_entry isalnum lower agents now) = [str_of_exn exc]) \/
   (status (recorded_entry isalnum lower agents now) = started /\
    published_articles (recorded_entry isalnum lower agents now) = 0%Z /\
    errors (recorded_entry isalnum lower agents now) = [])) /\
  (generated_articles (recorded_entry isalnum lower agents now) = 0%Z \/
   generated_articles (recorded_entry isalnum lower agents now)
   = generated_topics (recorded_entry isalnum lower agents now)) /\
  (0 <= generated_topics (recorded_entry isalnum lower agents now))%Z /\
  (0 <= published_articles (recorded_entry isalnum lower agents now))%Z.
Proof.
  rewrite recorded_entry_unfold.
  destruct (try_block_cases agents (started_entry now))
    as [(topics & drafts & approved & files & _ & Hrun & _ & _ & H)
       |[(x & _ & H)
        |[(topics & x & _ & _ & H)
         |(topics & drafts & x & _ & Hrun & _ & H)]]].
  - rewrite (try_except_returned _ _ _ H). cbn.
    apply run_ok_length in Hrun. unfold len. rewrite Hrun.
    split; [left; repeat split|]. split; [now right|]. split; lia.
  - destruct (is_Exception x) eqn:Hx.
    + rewrite (try_except_caught _ _ _ _ H Hx). cbn.
      split; [right; left; repeat split; now exists x|].
      split; [now left|]. split; lia.
    + rewrite (try_except_uncaught _ _ _ _ H Hx). cbn.
      split; [right; right; repeat split|].
      split; [now left|]. split; lia.
  - destruct (is_Exception x) eqn:Hx.
    + rewrite (try_except_caught _ _ _ _ H Hx). cbn.
      split; [right; left; repeat split; now exists x|].
      split; [now left|]. unfold len. split; lia.
    + rewrite (try_except_uncaught _ _ _ _ H Hx). cbn.
      split; [right; right; repeat split|].
      split; [now left|]. unfold len. split; lia.
  - apply run_ok_length in Hrun.
    destruct (is_Exception x) eqn:Hx.
    + rewrite (try_except_caught _ _ _ _ H Hx). cbn.
      unfold len. rewrite Hrun.
      split; [right; left; repeat split; now exists x|].
      split; [now right|]. split; lia.
    + rewrite (try_except_uncaught _ _ _ _ H Hx). cbn.
      unfold len. rewrite Hrun.
      split; [right; right; repeat split|].
      split; [now right|]. split; lia.
Qed.

(** An invocation ends in one of two ways, by what the [finally] block
    makes of the ledger that was loaded. *)
Lemma run_pipeline_finalize (agents : Agents) (now : datetime) (d : disk) :
  match finalize (load_performance (ensure_initial_files d))
          (recorded_entry isalnum lower agents now) with
  | inr p =>
      exists ending,
        run_pipeline isalnum lower agents now d
        = (save_performance p (ensure_initial_files d), ending) /\
        (ending = Completed \/ exists exc, ending = Uncaught exc)
  | inl x =>
      run_pipeline isalnum lower agents now d
      = (ensure_initial_files d, FinalizationRaised x)
  end.
Proof.
  unfold run_pipeline, recorded_entry. cbv zeta.
  destruct (try_except_outcome isalnum lower agents
              {| timestamp := isoformat now ++ py "Z"; status := started;
                 generated_topics := 0%Z; generated_articles := 0%Z;
                 published_articles := 0%Z; errors := [] |}) as [_ Hf].
  destruct (try_except isalnum lower agents _) as [e [u|x|]];
    cbn [fst snd] in *.
  - destruct (finalize _ e); [reflexivity|].
    exists Completed. split; [reflexivity | now left].
  - destruct (finalize _ e); [reflexivity|].
    exists (Uncaught x). split; [reflexivity | right; now exists x].
  - contradiction.
Qed.

End PipelineMore.

(** X9. When every stage returns, the run entry has the status
    [success], no error, and the counts of the topics discovered, of the
    drafts generated, which are as many as the topics, and of the files
    published. *)
Theorem successful_run_is_recorded
    (isalnum : char -> bool) (lower : char -> str)
    (agents : Agents) (now : datetime)
    (topics : list Topic) (drafts approved : list DraftArticle)
    (files : list str) :
  discovery_run agents = Returns topics ->
  run isalnum lower (content_clock agents) topics = Ok drafts ->
  validation_run agents drafts = Returns approved ->
  distribution_run agents approved = Returns files ->
  recorded_entry isalnum lower agents now
  = {| timestamp := isoformat now ++ py "Z"; status := success;
       generated_topics := len topics; generated_articles := len topics;
       published_articles := len files; errors := [] |}.
Proof.
  intros Hd Hr Hv Hp.
  assert (Hlen : len drafts = len topics).
  { unfold len. f_equal.
    exact (run_ok_length isalnum lower (content_clock agents) topics drafts Hr). }
  unfold recorded_entry, try_except, try_block, and_then, call, update.
  rewrite Hd. cbn [of_call]. rewrite Hr, Hv. cbn [of_call]. rewrite Hp.
  cbn. rewrite Hlen. reflexivity.
Qed.

Lemma successful_run_is_recorded_witness :
  recorded_entry ascii_isalnum ascii_lower
    (passthrough_agents scenario_topics) sample_instant
  = {| timestamp := isoformat sample_instant ++ py "Z"; status := success;
       generated_topics := len scenario_topics;
       generated_articles := len scenario_topics;
       published_articles := len (map slug scenario_drafts); errors := [] |}.
Proof.
  apply (successful_run_is_recorded ascii_isalnum ascii_lower
           (passthrough_agents scenario_topics) sample_instant
           scenario_topics scenario_drafts scenario_drafts
           (map slug scenario_drafts)).
  - reflexivity.
  - vm_compute. reflexivity.
  - reflexivity.
  - reflexivity.
Defined.

(** X10. The run entry of every invocation has the status [success]
    with no error and as many generated articles as topics, or the status
    [failed] with no published article and exactly one error, the message
    of an exception the [except] clause catches, or the status [started]
    with no published article and no error; its count of generated
    articles is zero or the count of topics, and no count is negative. *)
Theorem run_entry_outcomes
    (isalnum : char -> bool) (lower : char -> str)
    (agents : Agents) (now : datetime) :
  ((status (recorded_entry isalnum lower agents now) = success /\
    errors (recorded_entry isalnum lower agents now) = [] /\
    generated_articles (recorded_entry isalnum lower agents now)
    = generated_topics (recorded_entry isalnum lower agents now)) \/
   (status (recorded_entry isalnum lower agents now) = failed /\
    published_articles (recorded_entry isalnum lower agents now) = 0%Z /\
    exists exc,
      is_Exception exc = true /\
      errors (recorded_entry isalnum lower agents now) = [str_of_exn exc]) \/
   (status (recorded_entry isalnum lower agents now) = started /\
    published_articles (recorded_entry isalnum lower agents now) = 0%Z /\
    errors (recorded_entry isalnum lower agents now) = [])) /\
  (generated_articles (recorded_entry isalnum lower agents now) = 0%Z \/
   generated_articles (recorded_entry isalnum lower agents now)
   = generated_topics (recorded_entry isalnum lower agents now)) /\
  (0 <= generated_topics (recorded_entry isalnum lower agents now))%Z /\
  (0 <= published_articles (recorded_entry isalnum lower agents now))%Z.
Proof.
  exact (recorded_entry_cases isalnum lower agents now).
Qed.

(** X11. When the content stage returned and the validation or the
    distribution stage raises an exception the [except] clause catches,
    the run entry keeps the counts of topics and of generated articles,
    counts no published article, has the status [failed] and holds the
    message of the exception. *)
Theorem later_stage_failure_keeps_counts
    (isalnum : char -> bool) (lower : char -> str)
    (agents : Agents) (now : datetime)
    (topics : list Topic) (drafts : list DraftArticle) (exc : exn) :
  discovery_run agents = Returns topics ->
  run isalnum lower (content_clock agents) topics = Ok drafts ->
  (validation_run agents drafts = Raises exc \/
   exists approved,
     validation_run agents drafts = Returns approved /\
     distribution_run agents approved = Raises exc) ->
  is_Exception exc = true ->
  recorded_entry isalnum lower agents now
  = {| timestamp := isoformat now ++ py "Z"; status := failed;
       generated_topics := len topics; generated_articles := len drafts;
       published_articles := 0%Z; errors := [str_of_exn exc] |}.
Proof.
  intros Hd Hr Hlater Hx.
  unfold recorded_entry, try_except, try_block, and_then, call, update.
  rewrite Hd. cbn [of_call]. rewrite Hr.
  destruct Hlater as [Hv|(approved & Hv & Hp)].
  - rewrite Hv. cbn [of_call]. rewrite Hx. reflexivity.
  - rewrite Hv. cbn [of_call]. rewrite Hp. cbn [of_call]. rewrite Hx.
    reflexivity.
Qed.

Lemma later_stage_failure_keeps_counts_witness :
  recorded_entry ascii_isalnum ascii_lower
    failing_validation_agents sample_instant
  = {| timestamp := isoformat sample_instant ++ py "Z"; status := failed;
       generated_topics := len scenario_topics;
       generated_articles := len scenario_drafts;
       published_articles := 0%Z;
       errors := [str_of_exn (Raised true (py "draft rejected"))] |}.
Proof.
  apply (later_stage_failure_keeps_counts ascii_isalnum ascii_lower
           failing_validation_agents sample_instant
           scenario_topics scenario_drafts
           (Raised true (py "draft rejected"))).
  - reflexivity.
  - vm_compute. reflexivity.
  - left. reflexivity.
  - reflexivity.
Defined.

(** X12. When a stage raises an exception the [except] clause does not
    catch, the [finally] block still records the run: the ledger is
    written with an entry whose status is still [started] and which
    holds no error, and the exception leaves [run_pipeline]. *)
Theorem uncaught_exception_is_still_recorded
    (isalnum : char -> bool) (lower : char -> str)
    (agents : Agents) (now : datetime) (d : disk) (l : PerformanceLedger)
    (e' : RunEntry) (exc : exn) :
  try_block isalnum lower agents (started_entry now) = (e', Raise exc) ->
  is_Exception exc = false ->
  load_performance (ensure_initial_files d) = ledger_json l ->
  performance_file (fst (run_pipeline isalnum lower agents now d))
  = Holds (ledger_json (record_run l e')) /\
  snd (run_pipeline isalnum lower agents now d) = Uncaught exc /\
  status e' = started /\ errors e' = [] /\ published_articles e' = 0%Z.
Proof.
  intros H Hx Hl.
  assert (Hrun : run_pipeline isalnum lower agents now d
                 = (save_performance (ledger_json (record_run l e'))
                      (ensure_initial_files d),
                    Uncaught exc)).
  { unfold started_entry in H.
    unfold run_pipeline. cbv zeta.
    rewrite (try_except_uncaught isalnum lower agents _ e' exc H Hx), Hl.
    rewrite finalize_ledger. reflexivity. }
  rewrite Hrun. split; [reflexivity|]. split; [reflexivity|].
  destruct (try_block_cases isalnum lower agents (started_entry now))
    as [(topics & drafts & approved & files & _ & _ & _ & _ & H')
       |[(x & _ & H')
        |[(topics & x & _ & _ & H')
         |(topics & drafts & x & _ & _ & _ & H')]]];
    rewrite H in H'; try discriminate H';
    injection H' as -> _; repeat split.
Qed.

Lemma uncaught_exception_is_still_recorded_witness :
  performance_file
    (fst (run_pipeline ascii_isalnum ascii_lower interrupted_agents
            sample_instant empty_disk))
  = Holds (ledger_json
             (record_run empty_ledger (started_entry sample_instant))) /\
  snd (run_pipeline ascii_isalnum ascii_lower interrupted_agents
         sample_instant empty_disk)
  = Uncaught (Raised false []) /\
  status (started_entry sample_instant) = started /\
  errors (started_entry sample_instant) = [] /\
  published_articles (started_entry sample_instant) = 0%Z.
Proof.
  apply (uncaught_exception_is_still_recorded ascii_isalnum ascii_lower
           interrupted_agents sample_instant empty_disk empty_ledger
           (started_entry sample_instant) (Raised false [])).
  - reflexivity.
  - reflexivity.
  - reflexivity.
Defined.



(** X14. After any number of invocations, one after the other on the
    same data directory, the ledger holds the runs it held before
    followed by the entries of these invocations in order, and satisfies
    the invariant of the data model if it did before. *)
Theorem ledger_after_invocations
    (isalnum : char -> bool) (lower : char -> str)
    (invocations : list (Agents * datetime)) :
  forall (d : disk) (l : PerformanceLedger),
    load_performance (ensure_initial_files d) = ledger_json l ->
    ledger_invariant l ->
    exists l',
      load_performance
        (ensure_initial_files (run_all isalnum lower invocations d))
      = ledger_json l' /\
      runs l'
      = runs l ++ map (fun inv => recorded_entry isalnum lower
                                    (fst inv) (snd inv)) invocations /\
      ledger_invariant l'.
Proof.
  induction invocations as [|[agents now] rest IH]; intros d l Hl Hinv.
  - exists l. cbn [run_all fold_left map]. rewrite app_nil_r.
    split; [exact Hl|]. split; [reflexivity | exact Hinv].
  - destruct (run_pipeline_records isalnum lower agents now d l Hl)
      as (ending & Hrun & _).
    destruct (IH (fst (run_pipeline isalnum lower agents now d))
                (record_run l (recorded_entry isalnum lower agents now)))
      as (l' & Hl' & Hruns & Hinv').
    + rewrite Hrun. reflexivity.
    + now apply record_run_invariant.
    + exists l'. split; [exact Hl'|]. split; [|exact Hinv'].
      rewrite Hruns. cbn [record_run runs map fst snd].
      now rewrite <- app_assoc.
Qed.

Lemma ledger_after_invocations_witness :
  exists l',
    load_performance
      (ensure_initial_files
         (run_all ascii_isalnum ascii_lower
            [ (passthrough_agents malformed_topics, sample_instant);
              (interrupted_agents, sample_instant) ]
            empty_disk))
    = ledger_json l' /\
    runs l'
    = runs empty_ledger
      ++ map (fun inv => recorded_entry ascii_isalnum ascii_lower
                           (fst inv) (snd inv))
           [ (passthrough_agents malformed_topics, sample_instant);
             (interrupted_agents, sample_instant) ] /\
    ledger_invariant l'.
Proof.
  apply (ledger_after_invocations ascii_isalnum ascii_lower
           [ (passthrough_agents malformed_topics, sample_instant);
             (interrupted_agents, sample_instant) ]
           empty_disk empty_ledger).
  - reflexivity.
  - split; reflexivity.
Defined.

(** X15. Bootstrapping the files twice is bootstrapping them once;
    afterwards each of the three files exists, and a file that existed
    holds what it held. *)
Theorem bootstrap_is_idempotent (d : disk) :
  ensure_initial_files (ensure_initial_files d) = ensure_initial_files d /\
  (topics_file (ensure_initial_files d) <> None /\
   performance_file (ensure_initial_files d) <> Absent /\
   index_file (ensure_initial_files d) <> None) /\
  (topics_file d <> None ->
   topics_file (ensure_initial_files d) = topics_file d) /\
  (performance_file d <> Absent ->
   performance_file (ensure_initial_files d) = performance_file d) /\
  (index_file d <> None ->
   index_file (ensure_initial_files d) = index_file d).
Proof.
  destruct d as [[t|] [| |v] [i|]]; cbn;
    repeat split; try discriminate; try reflexivity; intros H;
    now destruct H.
Qed.



(** X17. An invocation writes the ledger exactly when the value it
    loaded is an object whose [runs] is a list, whose
    [articles_published] is missing or a number and whose [errors] is
    missing or a list; on every other value the [finally] block raises
    and the ledger file is left as it was. *)
Theorem run_is_recorded_iff_ledger_usable
    (isalnum : char -> bool) (lower : char -> str)
    (agents : Agents) (now : datetime) (d : disk) :
  (ledger_usable (load_performance (ensure_initial_files d)) <->
   exists p,
     performance_file (fst (run_pipeline isalnum lower agents now d))
     = Holds p /\
     finalize (load_performance (ensure_initial_files d))
       (recorded_entry isalnum lower agents now) = inr p /\
     (snd (run_pipeline isalnum lower agents now d) = Completed \/
      exists exc,
        snd (run_pipeline isalnum lower agents now d) = Uncaught exc)) /\
  (~ ledger_usable (load_performance (ensure_initial_files d)) <->
   (exists x,
      snd (run_pipeline isalnum lower agents now d) = FinalizationRaised x) /\
   performance_file (fst (run_pipeline isalnum lower agents now d))
   = performance_file (ensure_initial_files d)).
Proof.
  pose proof (run_pipeline_finalize isalnum lower agents now d) as Hrun.
  pose proof (finalize_usable (load_performance (ensure_initial_files d))
                (recorded_entry isalnum lower agents now)) as Hus.
  destruct (finalize (load_performance (ensure_initial_files d))
              (recorded_entry isalnum lower agents now)) as [x|p].
  - assert (Hno : ~ ledger_usable (load_performance (ensure_initial_files d))).
    { intros H. apply Hus in H as [p H]. discriminate H. }
    rewrite Hrun. cbn [fst snd]. split; split.
    + intros H. contradiction.
    + intros (p & _ & H & _). discriminate H.
    + intros _. split; [now exists x | reflexivity].
    + intros _. exact Hno.
  - destruct Hrun as (ending & Hrun & Hending).
    assert (Hyes : ledger_usable (load_performance (ensure_initial_files d))).
    { apply Hus. now exists p. }
    rewrite Hrun. cbn [fst snd]. split; split.
    + intros _. exists p. split; [reflexivity|]. split; [reflexivity|].
      exact Hending.
    + intros _. exact Hyes.
    + intros H. contradiction.
    + intros [[x H] _].
      destruct Hending as [->|[exc ->]]; discriminate H.
Qed.

(** X18. When the [finally] block raises nothing, the ledger it computes
    differs from the one it was given in four keys only: [runs] has the
    new entry at its end, [last_run] is the timestamp of the entry,
    [articles_published] is the former count, zero if it was missing,
    plus the published articles of the entry, and [errors] is the former
    list, empty if it was missing, followed by the errors of the entry. *)
Theorem finalization_updates_four_keys
    (d : list (str * json)) (e : RunEntry) (p : json) :
  finalize (JObj d) e = inr p ->
  exists d' rs total es,
    p = JObj d' /\
    lookup (py "runs") d = Some (JArr rs) /\
    add_count match lookup (py "articles_published") d with
              | Some v => v
              | None => JInt 0%Z
              end (published_articles e) = Some total /\
    match lookup (py "errors") d with
    | Some v => v
    | None => JArr []
    end = JArr es /\
    lookup (py "runs") d' = Some (JArr (rs ++ [entry_json e])) /\
    lookup (py "last_run") d' = Some (JStr (timestamp e)) /\
    lookup (py "articles_published") d' = Some total /\
    lookup (py "errors") d' = Some (JArr (es ++ map JStr (errors e))) /\
    forall key,
      key <> py "runs" -> key <> py "last_run" ->
      key <> py "articles_published" -> key <> py "errors" ->
      lookup key d' = lookup key d.
Proof.
  rewrite finalize_unfold. intros H.
  destruct (lookup (py "runs") d) as [[| | | | |rs|]|] eqn:Hruns;
    try discriminate H.
  destruct (add_count _ _) as [total|] eqn:Htotal; [|discriminate H].
  destruct (match lookup (py "errors") d with
            | Some v => v
            | None => JArr []
            end) as [| | | | |es|] eqn:Herr; try discriminate H.
  injection H as <-.
  eexists _, rs, total, es.
  split; [reflexivity|]. split; [reflexivity|]. split; [reflexivity|].
  split; [reflexivity|].
  split.
  { rewrite !lookup_setitem_other by keys_differ.
    apply lookup_setitem_same. }
  split.
  { rewrite !lookup_setitem_other by keys_differ.
    apply lookup_setitem_same. }
  split.
  { rewrite !lookup_setitem_other by keys_differ.
    apply lookup_setitem_same. }
  split; [apply lookup_setitem_same|].
  intros key H1 H2 H3 H4.
  rewrite !lookup_setitem_other by congruence. reflexivity.
Qed.

Lemma finalization_updates_four_keys_witness :
  exists d' rs total es,
    JObj [ (py "runs", JArr [entry_json (started_entry sample_instant)]);
           (py "owner", JStr (py "ops"));
           (py "last_run", JStr (timestamp (started_entry sample_instant)));
           (py "articles_published", JInt 0%Z);
           (py "errors", JArr []) ]
    = JObj d' /\
    lookup (py "runs") [ (py "runs", JArr []); (py "owner", JStr (py "ops")) ]
    = Some (JArr rs) /\
    add_count match lookup (py "articles_published")
                      [ (py "runs", JArr []); (py "owner", JStr (py "ops")) ]
              with
              | Some v => v
              | None => JInt 0%Z
              end (published_articles (started_entry sample_instant))
    = Some total /\
    match lookup (py "errors")
            [ (py "runs", JArr []); (py "owner", JStr (py "ops")) ] with
    | Some v => v
    | None => JArr []
    end = JArr es /\
    lookup (py "runs") d'
    = Some (JArr (rs ++ [entry_json (started_entry sample_instant)])) /\
    lookup (py "last_run") d'
    = Some (JStr (timestamp (started_entry sample_instant))) /\
    lookup (py "articles_published") d' = Some total /\
    lookup (py "errors") d'
    = Some (JArr (es ++ map JStr (errors (started_entry sample_instant)))) /\
    forall key,
      key <> py "runs" -> key <> py "last_run" ->
      key <> py "articles_published" -> key <> py "errors" ->
      lookup key d'
      = lookup key [ (py "runs", JArr []); (py "owner", JStr (py "ops")) ].
Proof.
  apply (finalization_updates_four_keys
           [ (py "runs", JArr []); (py "owner", JStr (py "ops")) ]
           (started_entry sample_instant)).
  vm_compute. reflexivity.
Defined.
